(** * The presence-and-message-routing gateway of the chat server

    A shallow embedding of the WebSocket part of
    [src/controllers/messageController.js] (the connection handler, the
    message router, the presence broadcasts and the heartbeat) together with
    the two Mongoose models it persists to ([models/User.js] and
    [models/Message.js]).

    Conventions of the embedding.
    - A WebSocket object is a heap cell: the registry, [wss.clients] and the
      handlers all hold the same socket identifier, so aliasing is kept.
      The socket API is the one of the [ws] package.
    - An [async] handler is a [Task]: the code between two [await]s is one
      atomic segment, and other handlers may run between two segments.  A
      store operation takes effect where it is issued.
    - Everything observable (frames put on a socket, registry writes) is
      appended to one chronological [log].
    - A JS string is a [string] whose characters stand for code units; a
      parsed [data] object is a finite map from field names to strings.
    - An ObjectId is written as its hex string, the one [toString()]
      returns.  [ws.userId] and [req.user._id] are ObjectIds of the store;
      an id that arrives from a client or in a token is a string that
      Mongoose casts before it queries or stores.
    - The store is an in-memory collection; its only failures are the ones
      the schemas themselves raise (cast and validation errors). *)

From stdpp Require Import gmap strings list fin_maps sorting.
From Stdlib Require Import ZArith Ascii.

Open Scope string_scope.

(** ** The persisted models *)

(** Both collections are keyed by [_id]: for users the ObjectId, written as
    the string [user._id.toString()]; for messages a number. *)

Abbreviation ObjectId := string (only parsing).

Module User.
Record t := mk {
  username : string;
  isOnline : bool;
  lastSeen : nat
}.
End User.

Module Message.
Inductive Status := sent | delivered | read.

Record t := mk {
  sender : ObjectId;
  receiver : ObjectId;
  content : string;
  messageType : string;
  isRead : bool;
  readAt : option nat;
  status : Status;
  createdAt : nat
}.

(** The order [sent] < [delivered] < [read] of the delivery status. *)
Definition rank (s : Status) : nat :=
  match s with sent => 0 | delivered => 1 | read => 2 end.
End Message.

#[global] Instance Status_eq_dec : EqDecision Message.Status.
Proof. solve_decision. Defined.

(** ** Sockets, envelopes and the observable log *)

Module WebSocket.
Inductive ReadyState := CONNECTING | OPEN | CLOSING | CLOSED.

(** The fields the server reads and writes on a socket object.  [userId],
    [username] and [isAlive] are [undefined] until the handshake sets them;
    [listening] records that the handlers were attached with [ws.on]. *)
Record t := mk {
  readyState : ReadyState;
  userId : option string;
  username : option string;
  isAlive : option bool;
  listening : bool
}.
End WebSocket.
Import WebSocket.

#[global] Instance ReadyState_eq_dec : EqDecision ReadyState.
Proof. solve_decision. Defined.

Abbreviation sock := nat (only parsing).

(** Server to client envelopes, [{type, data}]. *)
Inductive Envelope :=
| connection_established (userId username : string)
| online_users (users : list (string * string)) (totalOnline : nat) (timestamp : nat)
| user_online (userId username : string) (timestamp : nat)
| user_offline (userId username : string) (timestamp : nat)
| new_message (messageId : nat) (senderId senderUsername content messageType : string)
              (createdAt : nat)
| message_sent (messageId : nat) (receiverId content : string) (createdAt : nat)
               (status : Message.Status)
| message_delivered (messageId : nat) (deliveredAt : nat)
| messages_read (readBy readByUsername : string) (readAt : nat)
| mark_read_success (senderId : string) (markedCount : nat)
| typing_indicator (userId username : string) (isTyping : bool)
| error (message : string) (timestamp : nat).

Inductive Effect :=
| Send (to : sock) (e : Envelope)
| CloseFrame (s : sock) (code : Z)
| Terminate (s : sock)
| Ping (s : sock)
| RegistrySet (uid : string) (s : sock)
| RegistryDelete (uid : string).

(** ** The state shared by all handlers *)

Record St := mkSt {
  sockets : gmap nat WebSocket.t;
  clients : gset nat;
  connectedClients : gmap string nat;
  users : gmap ObjectId User.t;
  messages : gmap nat Message.t;
  now : nat;
  log : list Effect
}.

Definition with_sockets (f : gmap nat WebSocket.t -> gmap nat WebSocket.t) (st : St) : St :=
  mkSt (f (sockets st)) (clients st) (connectedClients st) (users st) (messages st)
       (now st) (log st).
Definition with_clients (f : gset nat -> gset nat) (st : St) : St :=
  mkSt (sockets st) (f (clients st)) (connectedClients st) (users st) (messages st)
       (now st) (log st).
Definition with_registry (f : gmap string nat -> gmap string nat) (st : St) : St :=
  mkSt (sockets st) (clients st) (f (connectedClients st)) (users st) (messages st)
       (now st) (log st).
Definition with_users (f : gmap string User.t -> gmap string User.t) (st : St) : St :=
  mkSt (sockets st) (clients st) (connectedClients st) (f (users st)) (messages st)
       (now st) (log st).
Definition with_messages (f : gmap nat Message.t -> gmap nat Message.t) (st : St) : St :=
  mkSt (sockets st) (clients st) (connectedClients st) (users st) (f (messages st))
       (now st) (log st).
Definition emit (ev : Effect) (st : St) : St :=
  mkSt (sockets st) (clients st) (connectedClients st) (users st) (messages st)
       (now st) (log st ++ [ev]).

(** The frames a socket's peer has received, oldest first. *)
Definition received (s : sock) (st : St) : list Envelope :=
  omap (fun ev => match ev with
                  | Send s' e => if decide (s' = s) then Some e else None
                  | _ => None
                  end) (log st).

(** ** Asynchronous handlers *)

#[warnings="-register-all"]
Inductive Task :=
| Done
| Await (k : St -> St * Task).

(** [await op k]: issue the store operation, then suspend; [k] resumes with
    its result. *)
Definition await {R} (op : St -> St * R) (k : R -> St -> St * Task) (st : St)
  : St * Task :=
  let (st', r) := op st in (st', Await (k r)).

(** Run a task to its end with nothing scheduled in between. *)
Fixpoint run (t : Task) (st : St) : St :=
  match t with
  | Done => st
  | Await k => let (st', t') := k st in run t' st'
  end.

Definition exec (h : St -> St * Task) (st : St) : St :=
  let (st', t) := h st in run t st'.

(** The outcome of an awaited promise. *)
Inductive Result (A : Type) :=
| Resolved (a : A)
| Threw.
Arguments Resolved {A} a.
Arguments Threw {A}.

(** ** JavaScript helpers *)

(** [!x] on a value that is a string, [null] or [undefined]. *)
Definition truthy (x : option string) : bool :=
  match x with
  | Some s => negb (String.eqb s EmptyString)
  | None => false
  end.

(** White space removed by [String.prototype.trim], among the code units a
    [string] character can stand for. *)
Definition is_white (c : ascii) : bool :=
  bool_decide (nat_of_ascii c ∈ [9; 10; 11; 12; 13; 32; 160]).

Fixpoint trimStart (s : string) : string :=
  match s with
  | String c r => if is_white c then trimStart r else s
  | EmptyString => EmptyString
  end.

Definition trim (s : string) : string :=
  String.rev (trimStart (String.rev (trimStart s))).

(** A parsed client envelope [{type, data}]; either member may be missing. *)
Record ClientMessage := mkMsg {
  type : option string;
  data : option (gmap string string)
}.

Section Gateway.

(** The two collaborators the source treats as opaque: the JWT check of
    [middleware/auth.js] (the [id] of the payload, or [null]) and Mongoose's
    cast of a string to an ObjectId.  [castObjectId s] says whether the cast
    of [s] succeeds (it raises a [CastError] otherwise) and [objectId s] is
    the ObjectId it yields: two spellings of one id, such as the same hex
    digits in upper and in lower case, have the same [objectId]. *)
Variable verifyToken : string -> option string.
Variable castObjectId : string -> bool.
Variable objectId : string -> ObjectId.

(** ** The store: [models/User.js] *)

(** [User.findById(id)] for an [id] that came from a client or a token. *)
Definition User_findById (id : string) (st : St) : St * Result (option User.t) :=
  if castObjectId id then (st, Resolved (users st !! objectId id)) else (st, Threw).

(** [User.findByIdAndUpdate(ws.userId, ...)]. *)
Definition User_findByIdAndUpdate (id : ObjectId) (f : User.t -> User.t) (st : St)
  : St * unit :=
  (with_users (alter f id) st, tt).

Definition setOnline (u : User.t) : User.t :=
  User.mk (User.username u) true (User.lastSeen u).
Definition setOffline (t : nat) (u : User.t) : User.t :=
  User.mk (User.username u) false t.

(** [User.find({ isOnline: true }).select('_id username avatar')]. *)
Definition User_find_online (st : St) : St * list (string * string) :=
  (st, (fun p => (p.1, User.username p.2))
         <$> filter (fun p => User.isOnline p.2 = true) (map_to_list (users st))).

(** ** The store: [models/Message.js] *)

Definition messageTypes : list string := ["text"; "image"; "file"].

(** What the schema accepts: both references cast, the trimmed content is
    present and at most 5000 long, the type is one of the enum. *)
Definition schemaAccepts (sender : ObjectId) (receiver content messageType : string)
  : bool :=
  castObjectId sender && castObjectId receiver
  && negb (String.eqb (trim content) EmptyString)
  && (String.length (trim content) <=? 5000)%nat
  && bool_decide (messageType ∈ messageTypes).

(** [Message.create({sender, receiver, content, messageType, status: 'sent'})];
    the result carries the new [_id] and the stored document.  [sender] is
    [ws.userId] or [req.user._id]; [receiver] is the string the client sent,
    stored as the ObjectId it casts to. *)
Definition Message_create (sender : ObjectId) (receiver content messageType : string)
    (st : St) : St * Result (nat * Message.t) :=
  if schemaAccepts sender receiver content messageType then
    let id := fresh (dom (messages st)) in
    let m := Message.mk sender (objectId receiver) (trim content) messageType
                        false None Message.sent (now st) in
    (with_messages <[id := m]> st, Resolved (id, m))
  else (st, Threw).

Definition setStatus (s : Message.Status) (m : Message.t) : Message.t :=
  Message.mk (Message.sender m) (Message.receiver m) (Message.content m)
             (Message.messageType m) (Message.isRead m) (Message.readAt m) s
             (Message.createdAt m).

(** [Message.findByIdAndUpdate(id, { status })]. *)
Definition Message_findByIdAndUpdate (id : nat) (s : Message.Status) (st : St)
  : St * unit :=
  (with_messages (alter (setStatus s) id) st, tt).

(** The filter and the update of [markAsRead]: [senderId] is the string the
    client sent, cast by the query; [receiverId] is [ws.userId] or
    [req.user._id]. *)
Definition unreadFrom (senderId : string) (receiverId : ObjectId) (m : Message.t)
  : bool :=
  bool_decide (Message.sender m = objectId senderId)
  && bool_decide (Message.receiver m = receiverId)
  && negb (Message.isRead m).

Definition setRead (t : nat) (m : Message.t) : Message.t :=
  Message.mk (Message.sender m) (Message.receiver m) (Message.content m)
             (Message.messageType m) true (Some t) Message.read
             (Message.createdAt m).

(** [Message.markAsRead(senderId, receiverId)]: one [updateMany], whose
    [modifiedCount] is returned. *)
Definition Message_markAsRead (senderId : string) (receiverId : ObjectId) (st : St)
  : St * Result nat :=
  if castObjectId senderId && castObjectId receiverId then
    let hit := filter (fun p => unreadFrom senderId receiverId p.2 = true)
                      (map_to_list (messages st)) in
    (with_messages
       (fmap (fun m => if unreadFrom senderId receiverId m
                       then setRead (now st) m else m)) st,
     Resolved (length hit))
  else (st, Threw).

(** ** The socket API of the [ws] library, as far as the server uses it *)

Definition isOpen (s : sock) (st : St) : bool :=
  bool_decide (readyState <$> sockets st !! s = Some OPEN).

Definition setReadyState (r : ReadyState) (k : WebSocket.t) : WebSocket.t :=
  WebSocket.mk r (userId k) (username k) (isAlive k) (listening k).
Definition setIsAlive (b : bool) (k : WebSocket.t) : WebSocket.t :=
  WebSocket.mk (readyState k) (userId k) (username k) (Some b) (listening k).
Definition setIdentity (uid uname : string) (k : WebSocket.t) : WebSocket.t :=
  WebSocket.mk (readyState k) (Some uid) (Some uname) (Some true) (listening k).
Definition setListening (k : WebSocket.t) : WebSocket.t :=
  WebSocket.mk (readyState k) (userId k) (username k) (isAlive k) true.

(** [ws.send]: a frame goes out on an open socket and is dropped otherwise. *)
Definition ws_send (s : sock) (e : Envelope) (st : St) : St :=
  if isOpen s st then emit (Send s e) st else st.

(** [ws.close(code)]: starts the closing handshake of an open socket; the
    ['close'] event comes later, as an event of its own. *)
Definition ws_close (s : sock) (code : Z) (st : St) : St :=
  if isOpen s st
  then emit (CloseFrame s code) (with_sockets (alter (setReadyState CLOSING) s) st)
  else st.

(** [ws.terminate()]: destroys the transport of a socket not yet closed. *)
Definition ws_terminate (s : sock) (st : St) : St :=
  match readyState <$> sockets st !! s with
  | Some CLOSED | None => st
  | Some _ => emit (Terminate s) (with_sockets (alter (setReadyState CLOSING) s) st)
  end.

Definition ws_ping (s : sock) (st : St) : St :=
  if isOpen s st then emit (Ping s) st else st.

(** ** Utility functions *)

Definition sendToClient (ws : sock) (message : Envelope) (st : St) : St :=
  if isOpen ws st then ws_send ws message st else st.

Definition sendError (ws : sock) (errorMessage : string) (st : St) : St :=
  sendToClient ws (error errorMessage (now st)) st.

(** [wss.clients.forEach]: every member of the set is visited once. *)
Definition forEach (f : sock -> St -> St) (st : St) : St :=
  foldl (fun acc client => f client acc) st (elements (clients st)).

Definition statusMessage (userId username : string) (isOnline : bool) (t : nat)
  : Envelope :=
  if isOnline then user_online userId username t else user_offline userId username t.

Definition broadcastUserStatus (userId username : string) (isOnline : bool) (st : St)
  : St :=
  let message := statusMessage userId username isOnline (now st) in
  forEach (fun client acc =>
             if isOpen client acc
                && negb (bool_decide (WebSocket.userId <$> sockets acc !! client
                                      = Some (Some userId)))
             then ws_send client message acc else acc) st.

(** The second half of [broadcastOnlineUsers], after its query resolved. *)
Definition pushOnlineUsers (onlineUsers : list (string * string)) (st : St) : St :=
  let message := online_users onlineUsers (length onlineUsers) (now st) in
  forEach (fun client acc =>
             if isOpen client acc then ws_send client message acc else acc) st.

(** [await broadcastOnlineUsers(wss)], followed by the rest [k] of the caller. *)
Definition broadcastOnlineUsers (k : St -> St * Task) : St -> St * Task :=
  await User_find_online (fun onlineUsers st => k (pushOnlineUsers onlineUsers st)).

Definition sendOnlineUsersToClient (ws : sock) : St -> St * Task :=
  await User_find_online (fun onlineUsers st =>
    (sendToClient ws (online_users onlineUsers (length onlineUsers) (now st)) st, Done)).

(** ** Message handlers

    [me] and [myname] are [ws.userId] and [ws.username]: both are assigned
    once, in the handshake, before any handler is attached.  The router
    compares [receiverId] with [ws.userId] and looks it up in the registry
    as the string it is; only the store casts it. *)

Definition handleChatMessage (ws : sock) (me : ObjectId) (myname : string)
    (data : gmap string string)
  : St -> St * Task := fun st =>
  let receiverId := data !! "receiverId" in
  let content := data !! "content" in
  let messageType := default "text" (data !! "messageType") in
  if negb (truthy receiverId) || negb (truthy content) then
    (sendError ws "Missing required fields: receiverId and content" st, Done)
  else if bool_decide (receiverId = Some me) then
    (sendError ws "Cannot send message to yourself" st, Done)
  else
    let receiverId := default EmptyString receiverId in
    let content := default EmptyString content in
    await (Message_create me receiverId content messageType) (fun created st =>
      match created with
      | Threw => (sendError ws "Failed to send message. Please try again." st, Done)
      | Resolved (newId, newMessage) =>
        (* newMessage.populate *)
        await (fun st => (st, tt)) (fun _ st =>
          let st := sendToClient ws
                      (message_sent newId receiverId content
                                    (Message.createdAt newMessage) Message.sent) st in
          match connectedClients st !! receiverId with
          | Some receiverConnection =>
            if isOpen receiverConnection st then
              let st := sendToClient receiverConnection
                          (new_message newId me myname content messageType
                                       (Message.createdAt newMessage)) st in
              await (Message_findByIdAndUpdate newId Message.delivered) (fun _ st =>
                (sendToClient ws (message_delivered newId (now st)) st, Done)) st
            else (st, Done)
          | None => (st, Done)
          end) st
      end) st.

Definition handleTypingIndicator (ws : sock) (me myname : string)
    (data : gmap string string) (isTyping : bool) : St -> St * Task := fun st =>
  let receiverId := data !! "receiverId" in
  if negb (truthy receiverId) then
    (sendError ws "Missing required field: receiverId" st, Done)
  else
    match connectedClients st !! default EmptyString receiverId with
    | Some receiverConnection =>
      if isOpen receiverConnection st then
        (sendToClient receiverConnection (typing_indicator me myname isTyping) st, Done)
      else (st, Done)
    | None => (st, Done)
    end.

Definition handleMarkRead (ws : sock) (me myname : string) (data : gmap string string)
  : St -> St * Task := fun st =>
  let senderId := data !! "senderId" in
  if negb (truthy senderId) then
    (sendError ws "Missing required field: senderId" st, Done)
  else
    let senderId := default EmptyString senderId in
    await (Message_markAsRead senderId me) (fun result st =>
      match result with
      | Threw => (sendError ws "Failed to mark messages as read." st, Done)
      | Resolved modifiedCount =>
        let st := match connectedClients st !! senderId with
                  | Some senderConnection =>
                    if isOpen senderConnection st then
                      sendToClient senderConnection (messages_read me myname (now st)) st
                    else st
                  | None => st
                  end in
        (sendToClient ws (mark_read_success senderId modifiedCount) st, Done)
      end) st.

Definition invalidFormat (ws : sock) : St -> St * Task := fun st =>
  (sendError ws "Invalid message format. Please send valid JSON." st, Done).

(** Destructuring [data] throws when it is missing; the [catch] of the
    ['message'] listener answers for it. *)
Definition destructure (ws : sock) (data : option (gmap string string))
    (body : gmap string string -> St -> St * Task) : St -> St * Task :=
  match data with
  | Some d => body d
  | None => invalidFormat ws
  end.

Definition handleMessage (ws : sock) (me myname : string) (message : ClientMessage)
  : St -> St * Task :=
  let ty := default "undefined" (type message) in
  if String.eqb ty "chat_message" then
    destructure ws (data message) (handleChatMessage ws me myname)
  else if String.eqb ty "typing_start" then
    destructure ws (data message) (fun d => handleTypingIndicator ws me myname d true)
  else if String.eqb ty "typing_stop" then
    destructure ws (data message) (fun d => handleTypingIndicator ws me myname d false)
  else if String.eqb ty "mark_read" then
    destructure ws (data message) (handleMarkRead ws me myname)
  else if String.eqb ty "get_online_users" then
    sendOnlineUsersToClient ws
  else
    fun st => (sendError ws ("Unknown message type: " ++ ty) st, Done).

(** The ['message'] listener; [None] is a payload [JSON.parse] rejects. *)
Definition onMessage (ws : sock) (me myname : string) (raw : option ClientMessage)
  : St -> St * Task :=
  match raw with
  | Some message => handleMessage ws me myname message
  | None => invalidFormat ws
  end.

(** ** Connection, disconnection and heartbeat *)

(** Close codes of the handshake and of supersession. *)
Definition AUTH_REQUIRED : Z := 4001.
Definition INVALID_TOKEN : Z := 4002.
Definition USER_NOT_FOUND : Z := 4003.
Definition SERVER_ERROR : Z := 4004.
Definition NEW_CONNECTION : Z := 4005.

Definition reject (ws : sock) (errorMessage : string) (code : Z) (st : St) : St * Task :=
  (ws_close ws code (sendError ws errorMessage st), Done).

(** Steps 3 to 5 of the connection handler, and the attachment of the
    listeners that ends it. *)
Definition registerConnection (ws : sock) (uid : ObjectId) (user : User.t)
  : St -> St * Task := fun st =>
  let uname := User.username user in
  let st := with_sockets (alter (setIdentity uid uname) ws) st in
  let st := match connectedClients st !! uid with
            | Some oldConnection => ws_close oldConnection NEW_CONNECTION st
            | None => st
            end in
  let st := emit (RegistrySet uid ws) (with_registry <[uid := ws]> st) in
  await (User_findByIdAndUpdate uid setOnline) (fun _ st =>
    let st := sendToClient ws (connection_established uid uname) st in
    let st := broadcastUserStatus uid uname true st in
    broadcastOnlineUsers (fun st =>
      (with_sockets (alter setListening ws) st, Done)) st) st.

(** The ['connection'] listener of the server. *)
Definition onConnection (ws : sock) (token : option string) : St -> St * Task :=
  fun st =>
  if negb (truthy token) then
    reject ws "Authentication required. Please provide a valid token." AUTH_REQUIRED st
  else
    match verifyToken (default EmptyString token) with
    | None =>
      reject ws "Invalid or expired token. Please login again." INVALID_TOKEN st
    | Some decoded_id =>
      await (User_findById decoded_id) (fun found st =>
        match found with
        | Threw => reject ws "Server error during authentication." SERVER_ERROR st
        | Resolved None => reject ws "User not found." USER_NOT_FOUND st
        | Resolved (Some user) =>
            (* ws.userId = user._id.toString() *)
            registerConnection ws (objectId decoded_id) user st
        end) st
    end.

(** The ['close'] listener of a registered socket. *)
Definition onClose (ws : sock) (me myname : string) : St -> St * Task := fun st =>
  let st := emit (RegistryDelete me) (with_registry (delete me) st) in
  await (User_findByIdAndUpdate me (setOffline (now st))) (fun _ st =>
    let st := broadcastUserStatus me myname false st in
    broadcastOnlineUsers (fun st => (st, Done)) st) st.

(** One tick of the heartbeat interval. *)
Definition heartbeat (st : St) : St :=
  forEach (fun ws acc =>
             if bool_decide (isAlive <$> sockets acc !! ws = Some (Some false))
             then ws_terminate ws acc
             else ws_ping ws (with_sockets (alter (setIsAlive false) ws) acc)) st.

(** ** The event loop *)

Inductive Event :=
| Connect (ws : sock) (token : option string)
| Receive (ws : sock) (raw : option ClientMessage)
| Closed (ws : sock)
| Pong (ws : sock)
| Heartbeat
| Tick (d : nat).

Definition freshSocket : WebSocket.t := WebSocket.mk OPEN None None None false.

(** The identity bound to a socket whose listeners are attached. *)
Definition listener (ws : sock) (st : St) : option (string * string) :=
  k ← sockets st !! ws;
  if listening k then
    uid ← userId k; uname ← username k; Some (uid, uname)
  else None.

(** What the library and the listeners do when an event arrives, up to the
    first [await]. *)
Definition dispatch (ev : Event) (st : St) : St * Task :=
  match ev with
  | Connect ws token =>
      match sockets st !! ws with
      | None =>
          onConnection ws token
            (with_clients (fun cs => cs ∪ {[ws]})
               (with_sockets <[ws := freshSocket]> st))
      | Some _ => (st, Done)
      end
  | Receive ws raw =>
      match readyState <$> sockets st !! ws, listener ws st with
      | Some (OPEN | CLOSING), Some (me, myname) => onMessage ws me myname raw st
      | _, _ => (st, Done)
      end
  | Closed ws =>
      match readyState <$> sockets st !! ws with
      | Some (OPEN | CLOSING) =>
          let st' := with_clients (fun cs => cs ∖ {[ws]})
                       (with_sockets (alter (setReadyState CLOSED) ws) st) in
          match listener ws st with
          | Some (me, myname) => onClose ws me myname st'
          | None => (st', Done)
          end
      | _ => (st, Done)
      end
  | Pong ws =>
      match listener ws st with
      | Some _ => (with_sockets (alter (setIsAlive true) ws) st, Done)
      | None => (st, Done)
      end
  | Heartbeat => (heartbeat st, Done)
  | Tick d =>
      (mkSt (sockets st) (clients st) (connectedClients st) (users st) (messages st)
            (now st + d) (log st), Done)
  end.

(** A configuration: the shared state and the handlers in flight, in the
    order they were started. *)
Definition Config : Type := St * list Task.

Inductive Action :=
| Fire (ev : Event)
| Resume (i : nat).

Definition act (a : Action) (c : Config) : Config :=
  match a with
  | Fire ev => let (st', t) := dispatch ev c.1 in (st', (c.2 ++ [t])%list)
  | Resume i =>
      match c.2 !! i with
      | Some (Await k) => let (st', t) := k c.1 in (st', <[i := t]> c.2)
      | _ => c
      end
  end.

Definition play (acts : list Action) (c : Config) : Config :=
  foldl (fun c a => act a c) c acts.

(** The server starts with no socket; the store holds whatever it holds. *)
Definition initial (us : gmap string User.t) (ms : gmap nat Message.t) (t : nat) : St :=
  mkSt ∅ ∅ ∅ us ms t [].

Definition reachable (st : St) : Prop :=
  exists us ms t acts, (play acts (initial us ms t, [])).1 = st.

End Gateway.

(** ** Vocabulary of the properties *)

(** The precondition the router itself checks on a [chat_message]. *)
Definition routerAccepts (me : string) (data : gmap string string) : bool :=
  truthy (data !! "receiverId") && truthy (data !! "content")
  && negb (bool_decide (data !! "receiverId" = Some me)).

(** A [chat_message] passes validation when the router and the schema of
    the message model both accept it. *)
Definition passesValidation (castObjectId : string -> bool) (me : string)
    (data : gmap string string) : bool :=
  routerAccepts me data
  && schemaAccepts castObjectId me (default EmptyString (data !! "receiverId"))
       (default EmptyString (data !! "content")) (default "text" (data !! "messageType")).

(** The receiver has an open registered connection. *)
Definition online (uid : string) (st : St) : bool :=
  match connectedClients st !! uid with
  | Some c => isOpen c st
  | None => false
  end.

(** The envelope a client sends for a chat message. *)
Definition chat_message (data : option (gmap string string)) : option ClientMessage :=
  Some (mkMsg (Some "chat_message") data).

(** The envelope a client sends to mark a conversation read. *)
Definition mark_read (data : option (gmap string string)) : option ClientMessage :=
  Some (mkMsg (Some "mark_read") data).

(** The stored document of a chat message from [me] to the user [r]. *)
Definition chatDocument (me r : ObjectId) (c : string) (data : gmap string string)
    (t : nat) : Message.t :=
  Message.mk me r (trim c) (default "text" (data !! "messageType")) false None
             Message.sent t.

(** The unread messages from the user [senderId] to the user [receiverId]. *)
Definition unread (senderId receiverId : ObjectId) (st : St) : gmap nat Message.t :=
  filter (fun p : nat * Message.t =>
            Message.sender p.2 = senderId /\ Message.receiver p.2 = receiverId
            /\ Message.isRead p.2 = false) (messages st).

(** The [messages_read] notice for the counterparty, sent when it has an
    open registered connection. *)
Definition readNotice (counterparty me myname : string) (st : St) : list Effect :=
  match connectedClients st !! counterparty with
  | Some c => if isOpen c st then [Send c (messages_read me myname (now st))] else []
  | None => []
  end.

(** Why a connection is closed by the server. *)
Inductive Cause :=
| NoCredential
| InvalidCredential
| IdentityNotFound
| StoreError
| Superseded.

Definition closeCode (c : Cause) : Z :=
  match c with
  | NoCredential => AUTH_REQUIRED
  | InvalidCredential => INVALID_TOKEN
  | IdentityNotFound => USER_NOT_FOUND
  | StoreError => SERVER_ERROR
  | Superseded => NEW_CONNECTION
  end.

(** The cause for which a handshake with this credential fails, if any. *)
Definition rejection (verifyToken : string -> option string)
    (castObjectId : string -> bool) (objectId : string -> ObjectId)
    (token : option string) (st : St) : option Cause :=
  match token with
  | None => Some NoCredential
  | Some t =>
      if String.eqb t EmptyString then Some NoCredential
      else match verifyToken t with
           | None => Some InvalidCredential
           | Some id =>
               if castObjectId id then
                 match users st !! objectId id with
                 | None => Some IdentityNotFound
                 | Some _ => None
                 end
               else Some StoreError
           end
  end.

(** White space only; a first and a last character that is white space. *)
Fixpoint whites (s : string) : bool :=
  match s with
  | String c r => is_white c && whites r
  | EmptyString => true
  end.

Definition startsWhite (s : string) : bool :=
  match s with
  | String c _ => is_white c
  | EmptyString => false
  end.

Fixpoint endsWhite (s : string) : bool :=
  match s with
  | String c EmptyString => is_white c
  | String _ r => endsWhite r
  | EmptyString => false
  end.

(** A live connection: a member of [wss.clients] whose socket is open. *)
Definition live (c : sock) (st : St) : bool :=
  bool_decide (c ∈ clients st) && isOpen c st.

(** The socket carries this identity in its [userId] field. *)
Definition boundTo (c : sock) (uid : string) (st : St) : bool :=
  bool_decide (WebSocket.userId <$> sockets st !! c = Some (Some uid)).

(** A field of the [data] member, [None] when the member or the field is
    missing. *)
Definition field (data : option (gmap string string)) (k : string) : option string :=
  d ← data; d !! k.

(** ** A small deployment on which the model is run *)

Module Demo.
Definition isHex (c : ascii) : bool :=
  let n := nat_of_ascii c in
  ((48 <=? n) && (n <=? 57) || (97 <=? n) && (n <=? 102)
   || (65 <=? n) && (n <=? 70))%nat.

Fixpoint allHex (s : string) : bool :=
  match s with
  | String c r => isHex c && allHex r
  | EmptyString => true
  end.

(** A string of 24 hexadecimal digits, in either case, casts. *)
Definition castObjectId (s : string) : bool :=
  (String.length s =? 24)%nat && allHex s.

Definition lower (c : ascii) : ascii :=
  let n := nat_of_ascii c in
  if ((65 <=? n) && (n <=? 70))%nat then ascii_of_nat (n + 32) else c.

(** The ObjectId of such a string: its digits in lower case. *)
Fixpoint objectId (s : string) : ObjectId :=
  match s with
  | String c r => String (lower c) (objectId r)
  | EmptyString => EmptyString
  end.

Definition alice : ObjectId := "64b000000000000000000a11".
Definition bob : ObjectId := "64b000000000000000000b0b".
Definition carol : ObjectId := "64b000000000000000000ca0".

(** The ids of Alice and of Bob as a client may also write them. *)
Definition ALICE : string := "64B000000000000000000A11".
Definition BOB : string := "64B000000000000000000B0B".

(** Tokens: one per user, one for a deleted account, one whose payload is
    not an ObjectId; anything else does not verify. *)
Definition verifyToken (t : string) : option string :=
  if String.eqb t "alice.jwt" then Some alice
  else if String.eqb t "bob.jwt" then Some bob
  else if String.eqb t "carol.jwt" then Some carol
  else if String.eqb t "ghost.jwt" then Some "64b000000000000000000000"
  else if String.eqb t "odd.jwt" then Some "xyz"
  else None.

Definition accounts : gmap string User.t :=
  <[alice := User.mk "alice" false 0]>
    (<[bob := User.mk "bob" false 0]>
       (<[carol := User.mk "carol" false 0]> ∅)).

Definition boot : Config := (initial accounts ∅ 100, []).

Definition go : list Action -> Config -> Config :=
  play verifyToken castObjectId objectId.

(** A connection attempt whose handler, the [i]-th started, is resumed
    until it ends. *)
Definition connect (ws : sock) (token : string) (i : nat) : list Action :=
  [Fire (Connect ws (Some token)); Resume i; Resume i; Resume i].

Definition chat (receiverId content : string) : gmap string string :=
  <["receiverId" := receiverId]> (<["content" := content]> ∅).

Definition readFrom (senderId : string) : gmap string string :=
  <["senderId" := senderId]> ∅.

(** Alice is connected on socket 1. *)
Definition aliceOnline : Config := go (connect 1 "alice.jwt" 0) boot.

(** Alice on socket 1 and Bob on socket 2. *)
Definition bothOnline : Config := go (connect 2 "bob.jwt" 1) aliceOnline.

(** Alice reconnects on socket 2 while socket 1 is still registered. *)
Definition aliceTwice : Config := go (connect 2 "alice.jwt" 1) aliceOnline.

(** Then the ['close'] event of the superseded socket 1 arrives and its
    listener, the third handler started, runs to its end. *)
Definition lateClose : list Action := [Fire (Closed 1); Resume 2; Resume 2].

(** Alice writes to Bob while he is offline; Bob connects afterwards. *)
Definition mailWaiting : Config :=
  go ([Fire (Receive 1 (chat_message (Some (chat bob "hi")))); Resume 1; Resume 1]
        ++ connect 2 "bob.jwt" 2)%list aliceOnline.

(** Both online.  Alice's [chat_message] to Bob is received and persisted
    (handler 2 suspends on [Message.create]); Bob's [mark_read] for Alice is
    received and handled (handler 3) while handler 2 is suspended; handler 2
    then resumes after [create] and suspends on [populate]. *)
Definition raceBefore : Config :=
  go [Fire (Receive 1 (chat_message (Some (chat bob "hi"))));
      Fire (Receive 2 (mark_read (Some (readFrom alice))));
      Resume 3; Resume 2] bothOnline.

(** Handler 2 resumes after [populate]: it confirms, delivers and issues
    the status update. *)
Definition raceAfter : Config := go [Resume 2] raceBefore.
End Demo.

(** ** The footprint of the gateway

    The atomic changes a handler segment is made of, each with the guard
    under which the code performs it. *)

(** A relation that every segment of a task satisfies, whenever the task is
    resumed. *)
Fixpoint always (R : St -> St -> Prop) (t : Task) : Prop :=
  match t with
  | Done => True
  | Await k => forall st, let (st', t') := k st in R st st' /\ always R t'
  end.

Section Footprint.

Variable castObjectId : string -> bool.
Variable objectId : string -> ObjectId.

(** What the message router does to the state. *)
Inductive RouterPrim : St -> St -> Prop :=
| router_send s e st :
    isOpen s st = true -> RouterPrim st (emit (Send s e) st)
| router_create me r c mt st :
    r <> me ->
    schemaAccepts castObjectId me r c mt = true ->
    RouterPrim st
      (with_messages
         <[fresh (dom (messages st))
           := Message.mk me (objectId r) (trim c) mt false None Message.sent (now st)]>
         st)
| router_delivered id st :
    RouterPrim st (with_messages (alter (setStatus Message.delivered) id) st)
| router_read senderId receiverId st :
    RouterPrim st
      (with_messages
         (fmap (fun m => if unreadFrom objectId senderId receiverId m
                         then setRead (now st) m else m)) st).

(** What the whole gateway does to the state: the router's changes, the
    connection life cycle, presence and the clock. *)
Inductive Prim : St -> St -> Prop :=
| prim_router st st' :
    RouterPrim st st' -> Prim st st'
| prim_control ev st :
    (forall s e, ev <> Send s e) -> Prim st (emit ev st)
| prim_socket f s st :
    (forall k, readyState (f k) = OPEN -> readyState k = OPEN) ->
    Prim st (with_sockets (alter f s) st)
| prim_accept ws st :
    sockets st !! ws = None ->
    Prim st (with_clients (fun cs => cs ∪ {[ws]})
               (with_sockets <[ws := freshSocket]> st))
| prim_forget ws st :
    Prim st (with_clients (fun cs => cs ∖ {[ws]}) st)
| prim_registry f st :
    Prim st (with_registry f st)
| prim_presence id f st :
    (forall u, User.username (f u) = User.username u) ->
    Prim st (with_users (alter f id) st)
| prim_tick d st :
    Prim st (mkSt (sockets st) (clients st) (connectedClients st) (users st)
                  (messages st) (now st + d) (log st)).

End Footprint.

(** A state and the rest of a task, both within [R] of where they started. *)
Definition within (R : St -> St -> Prop) (st : St) (p : St * Task) : Prop :=
  R st p.1 /\ always R p.2.

(** The message is still stored, with the fields no handler writes. *)
Definition sameLetter (m m' : Message.t) : Prop :=
  Message.sender m' = Message.sender m
  /\ Message.receiver m' = Message.receiver m
  /\ Message.content m' = Message.content m
  /\ Message.messageType m' = Message.messageType m
  /\ Message.createdAt m' = Message.createdAt m.

Definition keepsMessages (st st' : St) : Prop :=
  forall id m, messages st !! id = Some m ->
    exists m', messages st' !! id = Some m' /\ sameLetter m m'.

(** What the validators of the schema leave in a stored message. *)
Definition wellFormed (m : Message.t) : Prop :=
  Message.content m <> EmptyString
  /\ String.length (Message.content m) <= 5000
  /\ Message.messageType m ∈ messageTypes.

(** The read flag, the read time and the status [read] agree this far. *)
Definition readConsistent (m : Message.t) : Prop :=
  (Message.isRead m = true <-> is_Some (Message.readAt m))
  /\ (Message.status m = Message.read -> Message.isRead m = true).

(** The same accounts under the same names. *)
Definition sameAccounts (st st' : St) : Prop :=
  forall id, User.username <$> users st' !! id = User.username <$> users st !! id.

(** A socket that is not open stays so and receives nothing more. *)
Definition closedStaysClosed (st st' : St) : Prop :=
  forall s k, sockets st !! s = Some k -> readyState k <> OPEN ->
    (exists k', sockets st' !! s = Some k' /\ readyState k' <> OPEN)
    /\ received s st' = received s st.

(** What one heartbeat tick does to the socket of a client: a socket that
    did not answer the previous probe is terminated, any other is marked as
    not having answered yet. *)
Definition beat (k : WebSocket.t) : WebSocket.t :=
  if decide (isAlive k = Some false) then
    if decide (readyState k = CLOSED) then k else setReadyState CLOSING k
  else setIsAlive false k.

(** The types the router knows. *)
Definition knownTypes : list string :=
  ["chat_message"; "typing_start"; "typing_stop"; "mark_read"; "get_online_users"].

(** The envelopes of the typing signals and of the snapshot request. *)
Definition typing (isTyping : bool) (data : option (gmap string string))
  : option ClientMessage :=
  Some (mkMsg (Some (if isTyping then "typing_start" else "typing_stop")) data).

Definition get_online_users (data : option (gmap string string))
  : option ClientMessage :=
  Some (mkMsg (Some "get_online_users") data).

(** * The REST controllers and the middleware in front of them

    The handlers of [messageController.js] behind [/api/messages], the
    [protect] middleware and the error handler.  A handler is run from its
    first to its last [await] on the store; what it answers is its
    [Response]. *)

(** A message as [populate] returns it: the document and, for each party,
    the name of the account if it still exists. *)
Record Populated := mkPopulated {
  doc_id : nat;
  doc : Message.t;
  senderName : option string;
  receiverName : option string
}.

Inductive Body :=
| Failure (message : string)
| MessageSent (message : Populated)
| Conversation (messages : list Populated) (page limit total pages : nat)
| Marked (modifiedCount : nat)
| Unread (unreadCount : nat).

Record Response := mkResponse {
  statusCode : nat;
  success : bool;
  body : Body
}.

(** What a handler passes to [next]. *)
Inductive Err :=
| CastError
| ValidationError (messages : list string).

Fixpoint join (sep : string) (l : list string) : string :=
  match l with
  | [] => EmptyString
  | [x] => x
  | x :: r => x ++ sep ++ join sep r
  end.

(** [errorHandler]. *)
Definition errorHandler (err : Err) : Response :=
  match err with
  | ValidationError errors => mkResponse 400 false (Failure (join ", " errors))
  | CastError => mkResponse 400 false (Failure "Invalid ID format")
  end.

(** [s.split(' ')]. *)
Fixpoint splitSpace (s : string) : list string :=
  match s with
  | EmptyString => [EmptyString]
  | String c r =>
      if Ascii.eqb c " "%char then EmptyString :: splitSpace r
      else match splitSpace r with
           | w :: ws => String c w :: ws
           | [] => [String c EmptyString]
           end
  end.

Section Rest.

Variable verifyToken : string -> option string.
Variable castObjectId : string -> bool.
Variable objectId : string -> ObjectId.

(** ** [models/Message.js]: the remaining statics *)

(** [Message.getUnreadCount(userId)]; [userId] is [req.user._id]. *)
Definition Message_getUnreadCount (userId : ObjectId) (st : St) : St * Result nat :=
  if castObjectId userId then
    (st, Resolved (length (filter (fun p : nat * Message.t =>
                                     bool_decide (Message.receiver p.2 = userId)
                                     && negb (Message.isRead p.2) = true)
                                  (map_to_list (messages st)))))
  else (st, Threw).

(** The filter of a conversation: either direction between the two users.
    [userId1] is [req.user._id]; [userId2] is the string of the path, cast by
    the query. *)
Definition between (userId1 : ObjectId) (userId2 : string) (m : Message.t) : bool :=
  bool_decide (Message.sender m = userId1)
  && bool_decide (Message.receiver m = objectId userId2)
  || bool_decide (Message.sender m = objectId userId2)
     && bool_decide (Message.receiver m = userId1).

(** [sort({ createdAt: -1 })]: newest first. *)
Definition newerFirst (a b : nat * Message.t) : Prop :=
  Message.createdAt b.2 <= Message.createdAt a.2.

#[global] Instance newerFirst_dec a b : Decision (newerFirst a b).
Proof. unfold newerFirst. apply _. Defined.

Definition populate (st : St) (p : nat * Message.t) : Populated :=
  mkPopulated p.1 p.2 (User.username <$> users st !! Message.sender p.2)
              (User.username <$> users st !! Message.receiver p.2).

(** [Message.getConversation(userId1, userId2, limit, skip)], for a positive
    [limit]. *)
Definition Message_getConversation (userId1 : ObjectId) (userId2 : string)
    (limit skip : nat)
    (st : St) : St * Result (list Populated) :=
  if castObjectId userId1 && castObjectId userId2 then
    (st, Resolved
           (populate st
              <$> take limit
                    (drop skip
                       (merge_sort newerFirst
                          (filter (fun p => between userId1 userId2 p.2 = true)
                                  (map_to_list (messages st)))))))
  else (st, Threw).

(** [Message.countDocuments] on the filter of a conversation. *)
Definition Message_countConversation (userId1 : ObjectId) (userId2 : string) (st : St)
  : nat :=
  length (filter (fun p : nat * Message.t => between userId1 userId2 p.2 = true)
                 (map_to_list (messages st))).

(** ** [controllers/messageController.js]

    [me] is [req.user._id], the ObjectId of the account [protect] attached. *)

(** [Math.ceil(total / limit)] for a positive [limit]. *)
Definition pagesOf (total limit : nat) : nat := (total + limit - 1) / limit.

(** [getConversation]; [page] and [limit] are what [parseInt] yields for the
    query (1 and 50 when absent), both positive. *)
Definition getConversation (me userId : string) (page limit : option positive)
    (st : St) : St * Response :=
  let page := Pos.to_nat (default 1%positive page) in
  let limit := Pos.to_nat (default 50%positive limit) in
  match (User_findById castObjectId objectId userId st).2 with
  | Threw => (st, errorHandler CastError)
  | Resolved None => (st, mkResponse 404 false (Failure "User not found"))
  | Resolved (Some otherUser) =>
      let skip := (page - 1) * limit in
      match (Message_getConversation me userId limit skip st).2 with
      | Threw => (st, errorHandler CastError)
      | Resolved messages =>
          let total := Message_countConversation me userId st in
          let sortedMessages := reverse messages in
          (st, mkResponse 200 true
                 (Conversation sortedMessages page limit total (pagesOf total limit)))
      end
  end.

(** The messages of the validators of the schema that reject a document. *)
Definition validationErrors (content messageType : string) : list string :=
  (if String.eqb (trim content) EmptyString then ["Message content is required"]
   else if (String.length (trim content) <=? 5000)%nat then []
        else ["Message cannot exceed 5000 characters"])
  ++ (if bool_decide (messageType ∈ messageTypes) then []
      else ["`" ++ messageType ++ "` is not a valid enum value for path `messageType`."]).

(** [sendMessage]; the body is a JSON object of strings. *)
Definition sendMessage (me : string) (reqBody : gmap string string) (st : St)
  : St * Response :=
  let receiverId := reqBody !! "receiverId" in
  let content := reqBody !! "content" in
  let messageType := default "text" (reqBody !! "messageType") in
  if negb (truthy receiverId) || negb (truthy content) then
    (st, mkResponse 400 false (Failure "Receiver ID and content are required"))
  else
    let receiverId := default EmptyString receiverId in
    let content := default EmptyString content in
    match (User_findById castObjectId objectId receiverId st).2 with
    | Threw => (st, errorHandler CastError)
    | Resolved None => (st, mkResponse 404 false (Failure "Receiver not found"))
    | Resolved (Some receiver) =>
        if String.eqb receiverId me then
          (st, mkResponse 400 false (Failure "Cannot send message to yourself"))
        else
          match Message_create castObjectId objectId me receiverId content
                  messageType st with
          | (st', Resolved (id, message)) =>
              (st', mkResponse 201 true (MessageSent (populate st' (id, message))))
          | (st', Threw) =>
              (st', errorHandler (ValidationError (validationErrors content messageType)))
          end
    end.

(** [markMessagesAsRead]. *)
Definition markMessagesAsRead (me userId : string) (st : St) : St * Response :=
  match Message_markAsRead castObjectId objectId userId me st with
  | (st', Resolved modifiedCount) => (st', mkResponse 200 true (Marked modifiedCount))
  | (st', Threw) => (st', errorHandler CastError)
  end.

(** [getUnreadCount]. *)
Definition getUnreadCount (me : string) (st : St) : St * Response :=
  match Message_getUnreadCount me st with
  | (st', Resolved count) => (st', mkResponse 200 true (Unread count))
  | (st', Threw) => (st', errorHandler CastError)
  end.

(** ** [middleware/auth.js]: [protect] *)

Inductive Guard :=
| Denied (response : Response)
| Next (userId : ObjectId) (user : User.t).

Definition unauthorized (message : string) : Guard :=
  Denied (mkResponse 401 false (Failure message)).

(** [authorization] is the header of that name, if the request has one. *)
Definition protect (authorization : option string) (st : St) : Guard :=
  let token :=
    match authorization with
    | Some h => if String.prefix "Bearer" h then splitSpace h !! 1 else None
    | None => None
    end in
  if negb (truthy token) then
    unauthorized "Not authorized to access this route. Please login."
  else
    match verifyToken (default EmptyString token) with
    | None => unauthorized "Not authorized. Invalid or expired token."
    | Some decoded_id =>
        match (User_findById castObjectId objectId decoded_id st).2 with
        | Threw => unauthorized "Not authorized. Invalid or expired token."
        | Resolved None => unauthorized "User not found. Token is invalid."
        | Resolved (Some user) =>
            (* req.user = user, whose _id is the cast of decoded.id *)
            Next (objectId decoded_id) user
        end
    end.

End Rest.

(** The messages of a conversation page, none when the response is not one. *)
Definition conversationOf (r : Response) : list Populated :=
  match body r with
  | Conversation messages _ _ _ _ => messages
  | _ => []
  end.

(** A string without a space, as a token is. *)
Fixpoint spaceFree (s : string) : bool :=
  match s with
  | EmptyString => true
  | String c r => negb (Ascii.eqb c " "%char) && spaceFree r
  end.

(** ** Further scenes on the deployment *)

Module Scenes.
(** The message Alice left for Bob in [Demo.mailWaiting], as stored and as
    it is once Bob has read it. *)
Definition letter : Message.t :=
  Message.mk Demo.alice Demo.bob "hi" "text" false None Message.sent 100.

Definition letterRead : Message.t :=
  Message.mk Demo.alice Demo.bob "hi" "text" true (Some 100) Message.read 100.

(** Bob, on socket 2, marks Alice's messages read; the handler, the first
    started, runs to its end. *)
Definition bobReads : list Action :=
  [Fire (Receive 2 (mark_read (Some (Demo.readFrom Demo.alice))));
   Resume 0; Resume 0; Resume 0].

(** Bob connects on socket 3 and writes to Alice; a heartbeat tick follows. *)
Definition bobWrites : list Action :=
  (Demo.connect 3 "bob.jwt" 0
   ++ [Fire (Receive 3 (chat_message (Some (Demo.chat Demo.alice "hello"))));
       Resume 1; Resume 1; Resume 1; Fire Heartbeat])%list.

(** The socket of a registered, open connection of Alice. *)
Definition aliceSocket : WebSocket.t :=
  WebSocket.mk OPEN (Some Demo.alice) (Some "alice") (Some true) true.

(** The superseded socket of Alice in [Demo.aliceTwice]. *)
Definition aliceSuperseded : WebSocket.t :=
  WebSocket.mk CLOSING (Some Demo.alice) (Some "alice") (Some true) true.

(** An id that casts and names no account. *)
Definition nobody : string := "64b000000000000000000000".

Definition typingTo (receiverId : string) : gmap string string :=
  <["receiverId" := receiverId]> ∅.
End Scenes.

(** * Properties *)

Section Properties.

Variable castObjectId : string -> bool.
Variable objectId : string -> ObjectId.

(** ** Bookkeeping about the log and the socket heap *)

Lemma isOpen_emit s ev st : isOpen s (emit ev st) = isOpen s st.
Proof. reflexivity. Qed.

Lemma received_emit_send c s e st :
  received c (emit (Send s e) st)
  = (received c st ++ if decide (s = c) then [e] else [])%list.
Proof.
  unfold received, emit; simpl. rewrite omap_app. simpl.
  destruct (decide (s = c)); reflexivity.
Qed.

(** Projections of the state after an update of one of its parts. *)
Lemma log_emit ev st : log (emit ev st) = (log st ++ [ev])%list.
Proof. reflexivity. Qed.
Lemma log_with_messages f st : log (with_messages f st) = log st.
Proof. reflexivity. Qed.
Lemma log_with_users f st : log (with_users f st) = log st.
Proof. reflexivity. Qed.
Lemma log_with_sockets f st : log (with_sockets f st) = log st.
Proof. reflexivity. Qed.
Lemma log_with_registry f st : log (with_registry f st) = log st.
Proof. reflexivity. Qed.
Lemma messages_emit ev st : messages (emit ev st) = messages st.
Proof. reflexivity. Qed.
Lemma messages_with_messages f st : messages (with_messages f st) = f (messages st).
Proof. reflexivity. Qed.
Lemma users_emit ev st : users (emit ev st) = users st.
Proof. reflexivity. Qed.
Lemma users_with_messages f st : users (with_messages f st) = users st.
Proof. reflexivity. Qed.
Lemma registry_emit ev st : connectedClients (emit ev st) = connectedClients st.
Proof. reflexivity. Qed.
Lemma registry_with_messages f st :
  connectedClients (with_messages f st) = connectedClients st.
Proof. reflexivity. Qed.
Lemma now_emit ev st : now (emit ev st) = now st.
Proof. reflexivity. Qed.
Lemma now_with_messages f st : now (with_messages f st) = now st.
Proof. reflexivity. Qed.
Lemma isOpen_with_messages s f st : isOpen s (with_messages f st) = isOpen s st.
Proof. reflexivity. Qed.
Lemma isOpen_with_users s f st : isOpen s (with_users f st) = isOpen s st.
Proof. reflexivity. Qed.
Lemma isOpen_with_registry s f st : isOpen s (with_registry f st) = isOpen s st.
Proof. reflexivity. Qed.

Create Rewrite HintDb state.
Hint Rewrite log_emit log_with_messages log_with_users log_with_sockets
  log_with_registry messages_emit messages_with_messages users_emit
  users_with_messages registry_emit registry_with_messages now_emit
  now_with_messages isOpen_emit isOpen_with_messages isOpen_with_users
  isOpen_with_registry : state.

Lemma received_with_messages c f st : received c (with_messages f st) = received c st.
Proof. reflexivity. Qed.
Lemma received_with_users c f st : received c (with_users f st) = received c st.
Proof. reflexivity. Qed.
Lemma received_with_sockets c f st : received c (with_sockets f st) = received c st.
Proof. reflexivity. Qed.
Lemma received_with_registry c f st : received c (with_registry f st) = received c st.
Proof. reflexivity. Qed.

Hint Rewrite received_emit_send received_with_messages received_with_users
  received_with_sockets received_with_registry : state.

Lemma sendToClient_open ws m st :
  isOpen ws st = true -> sendToClient ws m st = emit (Send ws m) st.
Proof. intros H. unfold sendToClient, ws_send. rewrite H. reflexivity. Qed.

Lemma sendToClient_not_open ws m st :
  isOpen ws st = false -> sendToClient ws m st = st.
Proof. intros H. unfold sendToClient. rewrite H. reflexivity. Qed.

(** ** Lemmas about the registry, for C1 *)

Lemma entries_of_key_unique (l : list (string * nat)) (u : string) :
  NoDup l.*1 -> length (filter (fun p => p.1 = u) l) <= 1.
Proof.
  induction l as [|[k v] l IH]; simpl; intros Hnd; [lia|].
  apply NoDup_cons in Hnd as [Hk Hnd]. rewrite filter_cons. simpl.
  destruct (decide (k = u)) as [->|]; [|auto].
  assert (filter (fun p : string * nat => p.1 = u) l = []) as ->; [|simpl; lia].
  destruct (filter _ l) as [|[k' v'] l'] eqn:E; [reflexivity|]. exfalso.
  assert ((k', v') ∈ filter (fun p : string * nat => p.1 = u) l) as Hin
    by (rewrite E; left).
  apply list_elem_of_filter in Hin as [Hk' Hin]. simpl in Hk'. subst k'.
  apply Hk, list_elem_of_fmap. exists (u, v'). auto.
Qed.

Lemma registry_entries (m : gmap string nat) (u : string) :
  length (filter (fun p => p.1 = u) (map_to_list m)) <= 1.
Proof. apply entries_of_key_unique, NoDup_fst_map_to_list. Qed.

Lemma registry_entry_lookup (m : gmap string nat) (u : string) (s : nat) :
  m !! u = Some s -> filter (fun p => p.1 = u) (map_to_list m) = [(u, s)].
Proof.
  intros Hm. pose proof (registry_entries m u) as Hle.
  assert ((u, s) ∈ filter (fun p : string * nat => p.1 = u) (map_to_list m)) as Hin.
  { apply list_elem_of_filter. split; [reflexivity|]. apply elem_of_map_to_list, Hm. }
  destruct (filter _ _) as [|p [|q l]]; simpl in Hle.
  - inversion Hin.
  - apply list_elem_of_singleton in Hin. congruence.
  - lia.
Qed.

Lemma isOpen_alter_identity s ws f st :
  (forall k, readyState (f k) = readyState k) ->
  isOpen s (with_sockets (alter f ws) st) = isOpen s st.
Proof.
  intros Hf. unfold isOpen, with_sockets; simpl.
  assert (readyState <$> alter f ws (sockets st) !! s
          = readyState <$> sockets st !! s) as ->; [|reflexivity].
  destruct (decide (ws = s)) as [->|Hne].
  - rewrite lookup_alter_eq. destruct (sockets st !! s); simpl; [|reflexivity].
    f_equal. apply Hf.
  - rewrite lookup_alter_ne by exact Hne. reflexivity.
Qed.

Lemma ws_close_not_open s code st : isOpen s (ws_close s code st) = false.
Proof.
  unfold ws_close. destruct (isOpen s st) eqn:Ho; [|exact Ho].
  unfold isOpen in *. simpl. rewrite lookup_alter_eq.
  destruct (sockets st !! s); reflexivity.
Qed.

Lemma ws_close_log s code st :
  log (ws_close s code st)
  = (log st ++ if isOpen s st then [CloseFrame s code] else [])%list.
Proof.
  unfold ws_close. destruct (isOpen s st); simpl; [reflexivity|].
  symmetry; apply app_nil_r.
Qed.

Lemma registerConnection_log st ws uid user old :
  connectedClients st !! uid = Some old ->
  log (registerConnection ws uid user st).1
  = ((log st ++ if isOpen old st then [CloseFrame old NEW_CONNECTION] else [])
     ++ [RegistrySet uid ws])%list.
Proof.
  intros Hold. unfold registerConnection, await, User_findByIdAndUpdate. simpl.
  rewrite Hold, ws_close_log. do 2 f_equal.
  rewrite isOpen_alter_identity by reflexivity. reflexivity.
Qed.

(** ** C5 *)

(** C5. A [chat_message] whose [receiverId] is missing or empty, whose
    [content] is missing or empty, or whose [receiverId] is the sender's own
    identity, leaves the store (messages and users) and the registry as they
    were, creates no message, and puts exactly one [error] envelope on the
    sender's open socket. *)
Theorem C5_invalid_chat_message_rejected st ws me myname data :
  truthy (field data "receiverId") = false
  \/ truthy (field data "content") = false
  \/ field data "receiverId" = Some me ->
  let st' := exec (onMessage castObjectId objectId ws me myname (chat_message data)) st in
  messages st' = messages st
  /\ users st' = users st
  /\ connectedClients st' = connectedClients st
  /\ (isOpen ws st = true ->
      exists msg, log st' = (log st ++ [Send ws (error msg (now st))])%list).
Proof.
  intros Hbad.
  assert (Herr : forall msg,
    let st' := sendError ws msg st in
    messages st' = messages st /\ users st' = users st
    /\ connectedClients st' = connectedClients st
    /\ (isOpen ws st = true ->
        exists msg, log st' = (log st ++ [Send ws (error msg (now st))])%list)).
  { intros msg. unfold sendError. destruct (isOpen ws st) eqn:Ho.
    - rewrite sendToClient_open by exact Ho. simpl. repeat split; eauto.
    - rewrite sendToClient_not_open by exact Ho. repeat split; discriminate. }
  destruct data as [d|]; simpl in Hbad; [|apply Herr].
  unfold exec, chat_message, onMessage, handleMessage; simpl.
  unfold handleChatMessage.
  destruct (truthy (d !! "receiverId")) eqn:Hr; simpl; [|apply Herr].
  destruct (truthy (d !! "content")) eqn:Hc; simpl; [|apply Herr].
  destruct Hbad as [Hbad | [Hbad | Hbad]]; try discriminate.
  rewrite bool_decide_eq_true_2 by exact Hbad. apply Herr.
Qed.

(** ** C3 and C4 *)

(** The document [Message.create] stores for a validated chat message. *)
Lemma Message_create_accepted me r c mt st :
  schemaAccepts castObjectId me r c mt = true ->
  Message_create castObjectId objectId me r c mt st
  = (with_messages
       <[fresh (dom (messages st))
         := Message.mk me (objectId r) (trim c) mt false None Message.sent (now st)]>
       st,
     Resolved (fresh (dom (messages st)),
               Message.mk me (objectId r) (trim c) mt false None Message.sent
                          (now st))).
Proof. intros H. unfold Message_create. rewrite H. reflexivity. Qed.

Lemma fresh_message_id st : messages st !! fresh (dom (messages st)) = None.
Proof. apply not_elem_of_dom, is_fresh. Qed.

Lemma passesValidation_fields me (data : gmap string string) r c :
  data !! "receiverId" = Some r -> data !! "content" = Some c ->
  passesValidation castObjectId me data = true ->
  truthy (Some r) = true /\ truthy (Some c) = true /\ Some r <> Some me
  /\ schemaAccepts castObjectId me r c (default "text" (data !! "messageType")) = true.
Proof.
  unfold passesValidation, routerAccepts. intros -> -> H.
  apply andb_prop in H as [H Hs]. apply andb_prop in H as [H Hne].
  apply andb_prop in H as [Tr Tc].
  apply negb_true_iff, bool_decide_eq_false in Hne. auto.
Qed.

Lemma chat_offline_run st ws me myname (data : gmap string string) r c :
  data !! "receiverId" = Some r ->
  data !! "content" = Some c ->
  passesValidation castObjectId me data = true ->
  isOpen ws st = true ->
  online r st = false ->
  exec (onMessage castObjectId objectId ws me myname (chat_message (Some data))) st
  = emit (Send ws (message_sent (fresh (dom (messages st))) r c (now st) Message.sent))
         (with_messages
            <[fresh (dom (messages st))
              := chatDocument me (objectId r) c data (now st)]> st).
Proof.
  intros Hr Hc Hv Ho Hoff.
  destruct (passesValidation_fields _ _ _ _ Hr Hc Hv) as (Tr & Tc & Hne & Hs).
  unfold exec, chat_message, onMessage, handleMessage; simpl.
  unfold handleChatMessage. rewrite Hr, Hc, Tr, Tc. simpl.
  rewrite bool_decide_eq_false_2 by exact Hne.
  unfold await at 1. rewrite Message_create_accepted by exact Hs.
  simpl.
  rewrite sendToClient_open by (autorewrite with state; exact Ho).
  autorewrite with state.
  unfold online in Hoff.
  destruct (connectedClients st !! r) as [rc|] eqn:E.
  - autorewrite with state. rewrite Hoff. reflexivity.
  - reflexivity.
Qed.

(** C4. A validated [chat_message] whose receiver has no open registered
    connection puts exactly one frame on the wire, [message_sent] with status
    [sent] on the sender's socket (so no [message_delivered], no [error], and
    nothing for the receiver), and adds exactly one message to the store, from
    the sender to the ObjectId the [receiverId] casts to, with status [sent]
    and [isRead] false. *)
Theorem C4_chat_message_offline st ws me myname (data : gmap string string) r c :
  data !! "receiverId" = Some r ->
  data !! "content" = Some c ->
  passesValidation castObjectId me data = true ->
  isOpen ws st = true ->
  online r st = false ->
  let id := fresh (dom (messages st)) in
  let st' := exec (onMessage castObjectId objectId ws me myname
                     (chat_message (Some data))) st in
  log st' = (log st ++ [Send ws (message_sent id r c (now st) Message.sent)])%list
  /\ messages st !! id = None
  /\ (exists m, messages st' = <[id := m]> (messages st)
                /\ Message.sender m = me /\ Message.receiver m = objectId r
                /\ Message.status m = Message.sent /\ Message.isRead m = false)
  /\ users st' = users st.
Proof.
  intros Hr Hc Hv Ho Hoff id st'. subst st'.
  rewrite (chat_offline_run _ _ _ _ _ _ _ Hr Hc Hv Ho Hoff).
  split; [reflexivity|]. split; [apply fresh_message_id|].
  split; [|reflexivity].
  exists (chatDocument me (objectId r) c data (now st)). auto.
Qed.

Lemma chat_online_run st ws me myname (data : gmap string string) r c rc :
  data !! "receiverId" = Some r ->
  data !! "content" = Some c ->
  passesValidation castObjectId me data = true ->
  isOpen ws st = true ->
  connectedClients st !! r = Some rc ->
  isOpen rc st = true ->
  let id := fresh (dom (messages st)) in
  let mt := default "text" (data !! "messageType") in
  exec (onMessage castObjectId objectId ws me myname (chat_message (Some data))) st
  = emit (Send ws (message_delivered id (now st)))
      (with_messages (alter (setStatus Message.delivered) id)
         (emit (Send rc (new_message id me myname c mt (now st)))
            (emit (Send ws (message_sent id r c (now st) Message.sent))
               (with_messages
                  <[id := chatDocument me (objectId r) c data (now st)]> st)))).
Proof.
  intros Hr Hc Hv Ho Hreg Hro id mt.
  destruct (passesValidation_fields _ _ _ _ Hr Hc Hv) as (Tr & Tc & Hne & Hs).
  unfold exec, chat_message, onMessage, handleMessage; simpl.
  unfold handleChatMessage. rewrite Hr, Hc, Tr, Tc. simpl.
  rewrite bool_decide_eq_false_2 by exact Hne.
  unfold await at 1. rewrite Message_create_accepted by exact Hs.
  simpl.
  rewrite sendToClient_open by (autorewrite with state; exact Ho).
  autorewrite with state. rewrite Hreg.
  autorewrite with state. rewrite Hro.
  rewrite sendToClient_open by (autorewrite with state; exact Hro).
  unfold await, Message_findByIdAndUpdate. simpl.
  rewrite sendToClient_open by exact Ho.
  reflexivity.
Qed.


(** ** C6 *)

Lemma unreadFrom_spec senderId receiverId m :
  unreadFrom objectId senderId receiverId m = true
  <-> Message.sender m = objectId senderId /\ Message.receiver m = receiverId
      /\ Message.isRead m = false.
Proof.
  unfold unreadFrom.
  rewrite !andb_true_iff, !bool_decide_eq_true, negb_true_iff. tauto.
Qed.

Lemma unreadFrom_setRead senderId receiverId t m :
  unreadFrom objectId senderId receiverId
    (if unreadFrom objectId senderId receiverId m then setRead t m else m) = false.
Proof.
  destruct (unreadFrom objectId senderId receiverId m) eqn:E; [|exact E].
  unfold unreadFrom. simpl. apply andb_false_r.
Qed.

(** [modifiedCount] is the number of unread messages of the conversation. *)
Lemma modifiedCount_unread senderId receiverId st :
  length (filter (fun p : nat * Message.t => unreadFrom objectId senderId receiverId p.2 = true)
                 (map_to_list (messages st)))
  = size (unread (objectId senderId) receiverId st).
Proof.
  unfold unread. rewrite map_filter_alt, map_size_list_to_map.
  - f_equal. apply list_filter_iff. intros [i m]. simpl. apply unreadFrom_spec.
  - eapply sublist_NoDup; [apply (NoDup_fst_map_to_list (messages st))|].
    apply fmap_sublist, sublist_filter.
Qed.

Lemma modifiedCount_again senderId receiverId t (ms : gmap nat Message.t) :
  length (filter (fun p : nat * Message.t => unreadFrom objectId senderId receiverId p.2 = true)
            (map_to_list ((fun m => if unreadFrom objectId senderId receiverId m
                                    then setRead t m else m) <$> ms)))
  = 0.
Proof.
  rewrite map_to_list_fmap.
  induction (map_to_list ms) as [|[i m] l IH]; [reflexivity|].
  rewrite fmap_cons, filter_cons_False; [exact IH|].
  simpl. rewrite unreadFrom_setRead. discriminate.
Qed.

Lemma mark_read_run st ws me myname (data : gmap string string) cp :
  data !! "senderId" = Some cp ->
  cp <> EmptyString ->
  castObjectId cp = true ->
  castObjectId me = true ->
  isOpen ws st = true ->
  exec (onMessage castObjectId objectId ws me myname (mark_read (Some data))) st
  = mkSt (sockets st) (clients st) (connectedClients st) (users st)
         ((fun m => if unreadFrom objectId cp me m then setRead (now st) m else m)
            <$> messages st)
         (now st)
         (log st ++ readNotice cp me myname st
                 ++ [Send ws (mark_read_success cp (size (unread (objectId cp) me st)))]).
Proof.
  intros Hd Hne Hcp Hme Ho.
  unfold exec, mark_read, onMessage, handleMessage; simpl.
  unfold handleMarkRead. rewrite Hd. simpl.
  rewrite (proj2 (String.eqb_neq cp EmptyString)) by exact Hne. simpl.
  unfold await, Message_markAsRead. rewrite Hcp, Hme. simpl.
  rewrite modifiedCount_unread. unfold readNotice.
  destruct (connectedClients st !! cp) as [c|] eqn:E; simpl.
  - change (isOpen c (with_messages _ st)) with (isOpen c st).
    destruct (isOpen c st) eqn:Hc.
    + rewrite (sendToClient_open c) by exact Hc.
      rewrite sendToClient_open by exact Ho.
      unfold emit, with_messages; simpl. rewrite <- app_assoc. reflexivity.
    + rewrite sendToClient_open by exact Ho. reflexivity.
  - rewrite sendToClient_open by exact Ho. reflexivity.
Qed.

(** C6. A [mark_read] for a counterparty with [N] unread messages to the
    requester sets each of them to [isRead], status [read] and the same
    [readAt], leaves every other message alone and answers
    [mark_read_success] with [markedCount = N] (after the notice to the
    counterparty, when it is online); the same request sent again changes no
    message and answers [markedCount = 0].  The counterparty is the user
    whose ObjectId the [senderId] of the request casts to, however the
    client spelled it; the notice goes to the connection registered under
    the [senderId] as spelled. *)
Theorem C6_mark_read_idempotent st ws me myname (data : gmap string string) cp :
  data !! "senderId" = Some cp ->
  cp <> EmptyString ->
  castObjectId cp = true ->
  castObjectId me = true ->
  isOpen ws st = true ->
  let handler := onMessage castObjectId objectId ws me myname (mark_read (Some data)) in
  let N := size (unread (objectId cp) me st) in
  let st1 := exec handler st in
  let st2 := exec handler st1 in
  (forall id m, unread (objectId cp) me st !! id = Some m ->
     exists m', messages st1 !! id = Some m'
                /\ Message.isRead m' = true
                /\ Message.status m' = Message.read
                /\ Message.readAt m' = Some (now st))
  /\ (forall id, unread (objectId cp) me st !! id = None ->
      messages st1 !! id = messages st !! id)
  /\ log st1 = (log st ++ readNotice cp me myname st
                       ++ [Send ws (mark_read_success cp N)])%list
  /\ unread (objectId cp) me st1 = ∅
  /\ messages st2 = messages st1
  /\ log st2 = (log st1 ++ readNotice cp me myname st1
                        ++ [Send ws (mark_read_success cp 0)])%list.
Proof.
  intros Hd Hne Hcp Hme Ho handler N st1 st2.
  assert (E1 : st1 = _) by exact (mark_read_run st ws me myname data cp Hd Hne Hcp Hme Ho).
  assert (Ho1 : isOpen ws st1 = true) by (rewrite E1; exact Ho).
  assert (E2 : st2 = _) by exact (mark_read_run st1 ws me myname data cp Hd Hne Hcp Hme Ho1).
  assert (Hempty : unread (objectId cp) me st1 = ∅).
  { rewrite E1. unfold unread. simpl. apply map_empty. intros i.
    apply map_lookup_filter_None. right. intros m Hm Hu.
    apply lookup_fmap_Some in Hm as (m0 & <- & _).
    pose proof (unreadFrom_setRead cp me (now st) m0) as F.
    apply not_true_iff_false in F. apply F, unreadFrom_spec. exact Hu. }
  split; [|split; [|split; [|split; [|split]]]].
  - intros id m Hm. apply map_lookup_filter_Some in Hm as [Hm Hu].
    apply unreadFrom_spec in Hu. simpl in Hu. rewrite E1. simpl.
    rewrite lookup_fmap, Hm. simpl. rewrite Hu. eauto.
  - intros id Hn. rewrite E1. simpl. rewrite lookup_fmap.
    destruct (messages st !! id) as [m|] eqn:Hm; [|reflexivity]. simpl.
    destruct (unreadFrom objectId cp me m) eqn:Hu; [|reflexivity].
    apply unreadFrom_spec in Hu.
    assert (unread (objectId cp) me st !! id = Some m) as Hc
      by (apply map_lookup_filter_Some; auto).
    congruence.
  - rewrite E1. reflexivity.
  - exact Hempty.
  - rewrite E2. simpl. apply map_eq. intros i. rewrite lookup_fmap.
    destruct (messages st1 !! i) as [m|] eqn:Hm; [|reflexivity]. simpl.
    destruct (unreadFrom objectId cp me m) eqn:Hu; [|reflexivity].
    apply unreadFrom_spec in Hu.
    assert (unread (objectId cp) me st1 !! i = Some m) as Hc
      by (apply map_lookup_filter_Some; auto).
    rewrite Hempty in Hc. discriminate.
  - rewrite E2. simpl. rewrite Hempty. reflexivity.
Qed.

(** ** C9 *)

Section Handshake.

Variable verifyToken : string -> option string.

(** The state a rejected handshake leaves: the new socket is closing and has
    neither identity nor listeners. *)
Lemma reject_new_socket ws msg code st :
  reject ws msg code
    (with_clients (fun cs => cs ∪ {[ws]}) (with_sockets <[ws := freshSocket]> st))
  = (mkSt (<[ws := WebSocket.mk CLOSING None None None false]> (sockets st))
          (clients st ∪ {[ws]}) (connectedClients st) (users st) (messages st)
          (now st)
          (log st ++ [Send ws (error msg (now st)); CloseFrame ws code]), Done).
Proof.
  unfold reject, sendError. f_equal.
  set (st0 := with_clients _ _).
  assert (Ho : isOpen ws st0 = true).
  { unfold isOpen, st0; simpl. rewrite lookup_insert_eq. reflexivity. }
  rewrite sendToClient_open by exact Ho.
  unfold ws_close. rewrite isOpen_emit, Ho.
  unfold emit, with_sockets, st0; simpl.
  rewrite alter_insert_eq, <- app_assoc. reflexivity.
Qed.

Lemma closeCode_inj c1 c2 : closeCode c1 = closeCode c2 -> c1 = c2.
Proof. destruct c1, c2; simpl; intros H; try reflexivity; discriminate H. Qed.

(** C9. The five causes have pairwise distinct close codes.  A handshake
    that is rejected for a cause answers the new socket with one [error]
    envelope and closes it with the code of that cause; it writes neither the
    registry nor the users, sends nothing to any other socket, and attaches
    no listener, so that the later ['close'] event of that socket changes
    neither the registry nor the users and sends nothing.  Supersession
    closes the prior open connection with its own code. *)
Theorem C9_rejected_handshake st ws token cause :
  sockets st !! ws = None ->
  rejection verifyToken castObjectId objectId token st = Some cause ->
  let st' := exec (dispatch verifyToken castObjectId objectId (Connect ws token)) st in
  let st'' := exec (dispatch verifyToken castObjectId objectId (Closed ws)) st' in
  (forall c1 c2, closeCode c1 = closeCode c2 -> c1 = c2)
  /\ (exists msg, log st' = (log st ++ [Send ws (error msg (now st));
                                        CloseFrame ws (closeCode cause)])%list)
  /\ connectedClients st' = connectedClients st
  /\ users st' = users st
  /\ listener ws st' = None
  /\ connectedClients st'' = connectedClients st
  /\ users st'' = users st
  /\ log st'' = log st'
  /\ (forall ws2 uid user old,
        connectedClients st !! uid = Some old -> isOpen old st = true ->
        CloseFrame old (closeCode Superseded)
        ∈ log (registerConnection ws2 uid user st).1).
Proof.
  intros Hnew Hrej st' st''.
  assert (Hst' : exists msg, st' =
    mkSt (<[ws := WebSocket.mk CLOSING None None None false]> (sockets st))
         (clients st ∪ {[ws]}) (connectedClients st) (users st) (messages st)
         (now st)
         (log st ++ [Send ws (error msg (now st)); CloseFrame ws (closeCode cause)])).
  { subst st' st''. unfold exec, dispatch. rewrite Hnew.
    unfold rejection in Hrej. unfold onConnection, truthy.
    destruct token as [t|]; cbn [negb].
    - change (default EmptyString (Some t)) with t.
      destruct (String.eqb t EmptyString) eqn:Et; cbn [negb].
      + injection Hrej as <-. rewrite reject_new_socket. eauto.
      + destruct (verifyToken t) as [id|].
        * unfold await, User_findById.
          destruct (castObjectId id); cbn [run].
          -- destruct (users st !! objectId id) eqn:Eu; [discriminate|].
             cbn [users with_clients with_sockets]. rewrite Eu.
             injection Hrej as <-. rewrite reject_new_socket. eauto.
          -- injection Hrej as <-. rewrite reject_new_socket. eauto.
        * injection Hrej as <-. rewrite reject_new_socket. eauto.
    - injection Hrej as <-. rewrite reject_new_socket. eauto. }
  destruct Hst' as [msg Hst'].
  assert (Hst'' : connectedClients st'' = connectedClients st
                  /\ users st'' = users st /\ log st'' = log st').
  { subst st''. rewrite Hst'. unfold exec, dispatch, listener. simpl.
    rewrite lookup_insert_eq. simpl. auto. }
  split; [exact closeCode_inj|].
  split; [exists msg; rewrite Hst'; reflexivity|].
  split; [rewrite Hst'; reflexivity|].
  split; [rewrite Hst'; reflexivity|].
  split; [rewrite Hst'; unfold listener; simpl; rewrite lookup_insert_eq;
          reflexivity|].
  split; [apply Hst''|]. split; [apply Hst''|]. split; [apply Hst''|].
  intros ws2 uid user old Hold Ho.
  rewrite (registerConnection_log _ _ _ _ _ Hold), Ho.
  rewrite !elem_of_app, list_elem_of_singleton. left. right. reflexivity.
Qed.

(** ** C1 *)

(** A handshake whose credential verifies to the id of a stored user
    suspends on the user lookup and resumes with the registration of that
    user, under the ObjectId the id of the token casts to. *)
Lemma handshake_accepted st ws t d uid user :
  sockets st !! ws = None ->
  t <> EmptyString ->
  verifyToken t = Some d ->
  castObjectId d = true ->
  objectId d = uid ->
  users st !! uid = Some user ->
  (dispatch verifyToken castObjectId objectId (Connect ws (Some t)) st).2
  = Await (registerConnection ws uid user).
Proof.
  intros Hnew Ht Hv Hc <- Hu. unfold dispatch. rewrite Hnew.
  unfold onConnection, truthy.
  rewrite (proj2 (String.eqb_neq t EmptyString)) by exact Ht. cbn [negb].
  change (default EmptyString (Some t)) with t. rewrite Hv.
  unfold await, User_findById. rewrite Hc.
  cbn [users with_clients with_sockets]. rewrite Hu. reflexivity.
Qed.

(** C1. The registry never holds more than one connection for an identity.
    A handshake with a valid credential of a stored user (a token whose id
    casts to the ObjectId of that user) resumes with the registration of the
    new connection; and when that identity already has a
    registered connection, the registration sends the close frame of code
    4005 to the prior connection (if it is still open) before it writes the
    registry, the prior connection is no longer open afterwards, and the
    registry's only entry for the identity is the new connection. *)
Theorem C1_one_connection_per_identity st uid :
  length (filter (fun p => p.1 = uid) (map_to_list (connectedClients st))) <= 1
  /\ (forall st0 ws t d user,
        sockets st0 !! ws = None -> t <> EmptyString -> verifyToken t = Some d ->
        castObjectId d = true -> objectId d = uid -> users st0 !! uid = Some user ->
        (dispatch verifyToken castObjectId objectId (Connect ws (Some t)) st0).2
        = Await (registerConnection ws uid user))
  /\ forall ws user old,
      connectedClients st !! uid = Some old ->
      let st' := (registerConnection ws uid user st).1 in
      log st' = (log st
                 ++ (if isOpen old st then [CloseFrame old NEW_CONNECTION] else [])
                 ++ [RegistrySet uid ws])%list
      /\ isOpen old st' = false
      /\ connectedClients st' !! uid = Some ws
      /\ filter (fun p => p.1 = uid) (map_to_list (connectedClients st'))
         = [(uid, ws)].
Proof.
  split; [apply registry_entries|].
  split; [intros; eapply handshake_accepted; eassumption|].
  intros ws user old Hold st'. subst st'.
  split; [rewrite (registerConnection_log _ _ _ _ _ Hold), <- app_assoc;
          reflexivity|].
  unfold registerConnection, await, User_findByIdAndUpdate. simpl.
  rewrite Hold.
  split; [|split].
  - apply ws_close_not_open.
  - apply lookup_insert_eq.
  - apply registry_entry_lookup, lookup_insert_eq.
Qed.

End Handshake.

(** ** C8 *)

(** A [forEach] that sends one envelope to the clients selected by a test on
    their socket logs one frame per selected client and changes nothing
    else. *)
Lemma forEach_send (cond : sock -> St -> bool) (msg : Envelope) st :
  (forall c ev s, cond c (emit ev s) = cond c s) ->
  (forall c s, cond c s = true -> isOpen c s = true) ->
  forEach (fun client acc => if cond client acc then ws_send client msg acc else acc) st
  = mkSt (sockets st) (clients st) (connectedClients st) (users st) (messages st)
         (now st)
         (log st ++ ((fun c => Send c msg)
                       <$> filter (fun c => cond c st = true) (elements (clients st))))%list.
Proof.
  intros Hemit Hopen. unfold forEach.
  generalize (elements (clients st)) as l. intros l. revert st.
  induction l as [|a l IH]; intros st; simpl.
  - rewrite app_nil_r. destruct st; reflexivity.
  - rewrite IH. rewrite filter_cons.
    destruct (decide (cond a st = true)) as [Ec|Ec].
    + rewrite Ec. unfold ws_send. rewrite (Hopen _ _ Ec). simpl.
      rewrite <- app_assoc. simpl. do 2 f_equal.
      change (list_fmap nat Effect) with (@fmap list _ nat Effect). do 2 f_equal.
      apply list_filter_iff. intros c. rewrite Hemit. reflexivity.
    + apply not_true_is_false in Ec. rewrite Ec. reflexivity.
Qed.

Lemma received_sends (c : sock) (msg : Envelope) (P : sock -> Prop)
    `{!forall x, Decision (P x)} (l : list nat) :
  NoDup l ->
  omap (fun ev => match ev with
                  | Send s' e => if decide (s' = c) then Some e else None
                  | _ => None
                  end) ((fun c' => Send c' msg) <$> filter P l)
  = if decide (c ∈ l /\ P c) then [msg] else [].
Proof.
  induction l as [|a l IH]; intros Hnd.
  - destruct (decide (c ∈ [] /\ P c)) as [[Hin _]|]; [inversion Hin|reflexivity].
  - apply NoDup_cons in Hnd as [Ha Hnd]. rewrite filter_cons.
    specialize (IH Hnd).
    destruct (decide (P a)) as [Pa|Pa]; cbn [fmap list_fmap omap list_omap].
    + destruct (decide (a = c)) as [->|Hne].
      * fold (@fmap list _ nat Effect) in *.
        change (list_omap ?f ?l) with (omap f l). rewrite IH.
        rewrite decide_False by tauto.
        rewrite decide_True; [reflexivity|]. split; [left|exact Pa].
      * change (list_omap ?f ?l) with (omap f l).
        fold (@fmap list _ nat Effect) in *. rewrite IH.
        apply decide_ext. rewrite elem_of_cons.
        split; [tauto|]. intros [[?|?] ?]; [congruence|tauto].
    + rewrite IH. apply decide_ext. rewrite elem_of_cons.
      split; [tauto|]. intros [[->|?] ?]; tauto.
Qed.

Lemma broadcastUserStatus_run uid uname b st :
  broadcastUserStatus uid uname b st
  = mkSt (sockets st) (clients st) (connectedClients st) (users st) (messages st)
         (now st)
         (log st ++ ((fun c => Send c (statusMessage uid uname b (now st)))
                       <$> filter (fun c => isOpen c st && negb (boundTo c uid st) = true)
                                  (elements (clients st))))%list.
Proof.
  unfold broadcastUserStatus.
  apply (forEach_send (fun c s => isOpen c s && negb (boundTo c uid s))).
  - reflexivity.
  - intros c s H. apply andb_prop in H. apply H.
Qed.

Lemma pushOnlineUsers_run l st :
  pushOnlineUsers l st
  = mkSt (sockets st) (clients st) (connectedClients st) (users st) (messages st)
         (now st)
         (log st ++ ((fun c => Send c (online_users l (length l) (now st)))
                       <$> filter (fun c => isOpen c st = true) (elements (clients st))))%list.
Proof.
  unfold pushOnlineUsers. apply (forEach_send isOpen); auto.
Qed.

Lemma received_broadcastUserStatus c uid uname b st :
  received c (broadcastUserStatus uid uname b st)
  = (received c st
     ++ if live c st && negb (boundTo c uid st)
        then [statusMessage uid uname b (now st)] else [])%list.
Proof.
  rewrite broadcastUserStatus_run. unfold received at 1. simpl.
  rewrite omap_app. fold (received c st). f_equal.
  rewrite received_sends by apply NoDup_elements.
  unfold live. rewrite <- andb_assoc.
  destruct (decide _) as [[Hin Hc]|Hn].
  - apply elem_of_elements in Hin.
    rewrite bool_decide_eq_true_2 by exact Hin. simpl. rewrite Hc. reflexivity.
  - destruct (bool_decide (c ∈ clients st)) eqn:Hin; [|reflexivity]. simpl.
    destruct (isOpen c st && negb (boundTo c uid st)) eqn:Hc; [|reflexivity].
    exfalso. apply Hn. apply bool_decide_eq_true in Hin.
    split; [apply elem_of_elements, Hin|reflexivity].
Qed.

Lemma received_pushOnlineUsers c l st :
  received c (pushOnlineUsers l st)
  = (received c st
     ++ if live c st then [online_users l (length l) (now st)] else [])%list.
Proof.
  rewrite pushOnlineUsers_run. unfold received at 1. simpl.
  rewrite omap_app. fold (received c st). f_equal.
  rewrite received_sends by apply NoDup_elements.
  unfold live.
  destruct (decide _) as [[Hin Hc]|Hn].
  - apply elem_of_elements in Hin.
    rewrite bool_decide_eq_true_2 by exact Hin. simpl. rewrite Hc. reflexivity.
  - destruct (bool_decide (c ∈ clients st)) eqn:Hin; [|reflexivity]. simpl.
    destruct (isOpen c st) eqn:Hc; [|reflexivity].
    exfalso. apply Hn. apply bool_decide_eq_true in Hin.
    split; [apply elem_of_elements, Hin|reflexivity].
Qed.

Lemma sendToClient_run ws m st :
  sendToClient ws m st
  = mkSt (sockets st) (clients st) (connectedClients st) (users st) (messages st)
         (now st) (log st ++ if isOpen ws st then [Send ws m] else []).
Proof.
  unfold sendToClient, ws_send. destruct (isOpen ws st); [reflexivity|].
  rewrite app_nil_r. destruct st; reflexivity.
Qed.

Lemma received_sendToClient c ws m st :
  received c (sendToClient ws m st)
  = (received c st ++ if bool_decide (ws = c) && isOpen ws st then [m] else [])%list.
Proof.
  rewrite sendToClient_run. unfold received at 1. simpl.
  rewrite omap_app. fold (received c st). f_equal.
  destruct (isOpen ws st); [|rewrite andb_false_r; reflexivity]. simpl.
  rewrite andb_true_r. destruct (decide (ws = c)) as [E|E].
  - rewrite bool_decide_eq_true_2 by exact E. reflexivity.
  - rewrite bool_decide_eq_false_2 by exact E. reflexivity.
Qed.

(** The presence part of a registration or deregistration, once the store
    has been updated: status broadcast, then snapshot. *)
Lemma received_presence c uid uname b st :
  received c (pushOnlineUsers
                (User_find_online (broadcastUserStatus uid uname b st)).2
                (broadcastUserStatus uid uname b st))
  = (received c st
     ++ (if live c st && negb (boundTo c uid st)
         then [statusMessage uid uname b (now st)] else [])
     ++ (if live c st
         then [online_users (User_find_online st).2
                            (length (User_find_online st).2) (now st)]
         else []))%list.
Proof.
  rewrite received_pushOnlineUsers, received_broadcastUserStatus.
  (* the query reads the users, which a broadcast leaves alone *)
  rewrite broadcastUserStatus_run, <- app_assoc. reflexivity.
Qed.

Lemma received_ws_close c s code st : received c (ws_close s code st) = received c st.
Proof.
  unfold ws_close. destruct (isOpen s st); [|reflexivity].
  unfold received; simpl. rewrite omap_app. simpl. apply app_nil_r.
Qed.

Lemma now_ws_close s code st : now (ws_close s code st) = now st.
Proof. unfold ws_close. destruct (isOpen s st); reflexivity. Qed.

Lemma users_ws_close s code st : users (ws_close s code st) = users st.
Proof. unfold ws_close. destruct (isOpen s st); reflexivity. Qed.

Lemma registerConnection_exec ws uid user st :
  let stA := (registerConnection ws uid user st).1 in
  exec (registerConnection ws uid user) st
  = with_sockets (alter setListening ws)
      (pushOnlineUsers
         (User_find_online
            (broadcastUserStatus uid (User.username user) true
               (sendToClient ws (connection_established uid (User.username user))
                  stA))).2
         (broadcastUserStatus uid (User.username user) true
            (sendToClient ws (connection_established uid (User.username user)) stA))).
Proof. reflexivity. Qed.

Lemma received_emit_registry c uid ws st :
  received c (emit (RegistrySet uid ws) st) = received c st.
Proof. unfold received; simpl. rewrite omap_app. apply app_nil_r. Qed.

Lemma boundTo_ws_close c uid s code st :
  boundTo c uid (ws_close s code st) = boundTo c uid st.
Proof.
  unfold ws_close. destruct (isOpen s st); [|reflexivity].
  unfold boundTo; simpl. destruct (decide (s = c)) as [->|Hne].
  - rewrite lookup_alter_eq. destruct (sockets st !! c); reflexivity.
  - rewrite lookup_alter_ne by exact Hne. reflexivity.
Qed.

Lemma registerConnection_first ws uid user st :
  let stA := (registerConnection ws uid user st).1 in
  (forall c, received c stA = received c st)
  /\ now stA = now st
  /\ users stA = alter setOnline uid (users st)
  /\ (is_Some (sockets st !! ws) -> boundTo ws uid stA = true).
Proof.
  unfold registerConnection, await, User_findByIdAndUpdate. cbn [fst].
  set (st1 := with_sockets (alter (setIdentity uid (User.username user)) ws) st).
  assert (Hb : is_Some (sockets st !! ws) -> boundTo ws uid st1 = true).
  { intros [k Hk]. unfold boundTo, st1; simpl.
    rewrite lookup_alter_eq, Hk. apply bool_decide_eq_true_2. reflexivity. }
  set (st2 := match connectedClients st1 !! uid with
              | Some oldConnection => ws_close oldConnection NEW_CONNECTION st1
              | None => st1
              end).
  assert (H2 : (forall c, received c st2 = received c st) /\ now st2 = now st
               /\ users st2 = users st
               /\ (forall c, boundTo c uid st2 = boundTo c uid st1)).
  { subst st2. destruct (connectedClients st1 !! uid) as [old|].
    - split; [intros c; rewrite received_ws_close; reflexivity|].
      split; [rewrite now_ws_close; reflexivity|].
      split; [rewrite users_ws_close; reflexivity|].
      intros c. apply boundTo_ws_close.
    - auto. }
  destruct H2 as (Hrec & Hnow & Hus & Hbd).
  split; [|split; [|split]].
  - intros c. rewrite received_with_users, received_emit_registry,
      received_with_registry. apply Hrec.
  - exact Hnow.
  - cbn [users with_users emit with_registry]. rewrite Hus. reflexivity.
  - intros Hs. rewrite <- (Hb Hs), <- Hbd. reflexivity.
Qed.

Lemma onClose_exec ws me myname st :
  let stA := (onClose ws me myname st).1 in
  exec (onClose ws me myname) st
  = pushOnlineUsers (User_find_online (broadcastUserStatus me myname false stA)).2
      (broadcastUserStatus me myname false stA).
Proof. reflexivity. Qed.

(** C8. A status broadcast reaches exactly the live connections that are
    not bound to the subject identity, and a snapshot push reaches exactly
    the live connections, whatever the state of the other sockets.  Every
    registration sends [user_online] and then the refreshed [online_users]
    that way (the subject's own connection, bound to the identity, gets the
    welcome and the snapshot but not the status), and every deregistration
    sends [user_offline] and then the refreshed [online_users]. *)
Theorem C8_presence_broadcast st c :
  (forall uid uname b,
     received c (broadcastUserStatus uid uname b st)
     = (received c st
        ++ if live c st && negb (boundTo c uid st)
           then [statusMessage uid uname b (now st)] else [])%list)
  /\ (forall l,
       received c (pushOnlineUsers l st)
       = (received c st
          ++ if live c st then [online_users l (length l) (now st)] else [])%list)
  /\ (forall ws uid user,
       let stA := (registerConnection ws uid user st).1 in
       let snapshot := (User_find_online stA).2 in
       received c (exec (registerConnection ws uid user) st)
       = (received c st
          ++ (if bool_decide (ws = c) && isOpen ws stA
              then [connection_established uid (User.username user)] else [])
          ++ (if live c stA && negb (boundTo c uid stA)
              then [user_online uid (User.username user) (now st)] else [])
          ++ (if live c stA
              then [online_users snapshot (length snapshot) (now st)] else []))%list
       /\ (is_Some (sockets st !! ws) -> boundTo ws uid stA = true)
       /\ users stA = alter setOnline uid (users st))
  /\ (forall ws me myname,
       let stA := (onClose ws me myname st).1 in
       let snapshot := (User_find_online stA).2 in
       received c (exec (onClose ws me myname) st)
       = (received c st
          ++ (if live c stA && negb (boundTo c me stA)
              then [user_offline me myname (now st)] else [])
          ++ (if live c stA
              then [online_users snapshot (length snapshot) (now st)] else []))%list
       /\ users stA = alter (setOffline (now st)) me (users st)).
Proof.
  split; [intros; apply received_broadcastUserStatus|].
  split; [intros; apply received_pushOnlineUsers|].
  split.
  - intros ws uid user stA snapshot.
    destruct (registerConnection_first ws uid user st) as (Hrec & Hnow & Hus & Hb).
    fold stA in Hrec, Hnow, Hus, Hb.
    split; [|split; [exact Hb|exact Hus]].
    rewrite registerConnection_exec. fold stA.
    rewrite received_with_sockets.
    set (welcome := connection_established uid (User.username user)).
    assert (Hw : sendToClient ws welcome stA
                 = mkSt (sockets stA) (clients stA) (connectedClients stA) (users stA)
                        (messages stA) (now stA)
                        (log stA ++ if isOpen ws stA then [Send ws welcome] else []))
      by apply sendToClient_run.
    rewrite received_presence.
    rewrite received_sendToClient, Hrec, Hw. cbn [now]. rewrite Hnow.
    rewrite <- !app_assoc. reflexivity.
  - intros ws me myname stA snapshot. split; [|reflexivity].
    rewrite onClose_exec. fold stA. rewrite received_presence.
    assert (received c stA = received c st) as ->; [|reflexivity].
    unfold received, stA, onClose, await, User_findByIdAndUpdate. simpl.
    rewrite omap_app. apply app_nil_r.
Qed.

End Properties.

(** ** C2 and C7: what the code does on two schedules *)

(** C2. The ['close'] listener deletes the registry entry of its identity
    whichever connection the entry holds.  On the schedule where Alice
    reconnects on socket 2 and the ['close'] event of the superseded socket 1
    arrives afterwards, the entry that held socket 2 is gone, Alice is
    recorded offline, and socket 2 is still open. *)
Theorem C2_late_close_removes_newer_connection :
  (forall st ws me myname, connectedClients (onClose ws me myname st).1 !! me = None)
  /\ reachable Demo.verifyToken Demo.castObjectId Demo.objectId Demo.aliceTwice.1
  /\ connectedClients Demo.aliceTwice.1 !! Demo.alice = Some 2
  /\ isOpen 1 Demo.aliceTwice.1 = false
  /\ let after := (Demo.go Demo.lateClose Demo.aliceTwice).1 in
     connectedClients after !! Demo.alice = None
     /\ isOpen 2 after = true
     /\ boundTo 2 Demo.alice after = true
     /\ User.isOnline <$> users after !! Demo.alice = Some false.
Proof.
  split.
  { intros st ws me myname. unfold onClose, await, User_findByIdAndUpdate. simpl.
    apply lookup_delete_eq. }
  split.
  { exists Demo.accounts, ∅, 100,
      (Demo.connect 1 "alice.jwt" 0 ++ Demo.connect 2 "alice.jwt" 1)%list.
    vm_compute. reflexivity. }
  vm_compute. repeat split; reflexivity.
Qed.

(** C7. On the schedule where Bob's [mark_read] is handled while Alice's
    [chat_message] handler is suspended between persisting the message and
    delivering it, the message has status [read] before the handler's
    delivery update and status [delivered] after it, with [isRead] still
    true: the status moved backwards. *)
Theorem C7_status_moves_backwards :
  (forall m, Message.status m = Message.read ->
     Message.rank (Message.status (setStatus Message.delivered m))
     < Message.rank (Message.status m))
  /\ reachable Demo.verifyToken Demo.castObjectId Demo.objectId Demo.raceBefore.1
  /\ Demo.raceAfter
     = act Demo.verifyToken Demo.castObjectId Demo.objectId (Resume 2) Demo.raceBefore
  /\ Message.status <$> messages Demo.raceBefore.1 !! 0 = Some Message.read
  /\ Message.status <$> messages Demo.raceAfter.1 !! 0 = Some Message.delivered
  /\ Message.isRead <$> messages Demo.raceAfter.1 !! 0 = Some true
  /\ Message.rank Message.delivered < Message.rank Message.read.
Proof.
  split; [intros m ->; simpl; lia|].
  split.
  { exists Demo.accounts, ∅, 100,
      (Demo.connect 1 "alice.jwt" 0 ++ Demo.connect 2 "bob.jwt" 1
       ++ [Fire (Receive 1 (chat_message (Some (Demo.chat Demo.bob "hi"))));
           Fire (Receive 2 (mark_read (Some (Demo.readFrom Demo.alice))));
           Resume 3; Resume 2])%list.
    vm_compute. reflexivity. }
  split; [reflexivity|].
  vm_compute. repeat split; reflexivity || lia.
Qed.

(** ** The theorems at work on the deployment *)

(** C1 where Alice, registered on socket 1, completes a handshake on
    socket 2. *)
Lemma C1_witness :
  connectedClients Demo.aliceOnline.1 !! Demo.alice = Some 1
  /\ let st := Demo.aliceOnline.1 in
     let st' := (registerConnection 2 Demo.alice (User.mk "alice" true 0) st).1 in
     log st' = (log st
                ++ (if isOpen 1 st then [CloseFrame 1 NEW_CONNECTION] else [])
                ++ [RegistrySet Demo.alice 2])%list
     /\ isOpen 1 st' = false
     /\ connectedClients st' !! Demo.alice = Some 2
     /\ filter (fun p => p.1 = Demo.alice) (map_to_list (connectedClients st'))
        = [(Demo.alice, 2)].
Proof.
  assert (H : connectedClients Demo.aliceOnline.1 !! Demo.alice = Some 1)
    by (vm_compute; reflexivity).
  split; [exact H|].
  exact (proj2 (proj2 (C1_one_connection_per_identity Demo.castObjectId Demo.objectId
                         Demo.verifyToken Demo.aliceOnline.1 Demo.alice))
               2 (User.mk "alice" true 0) 1 H).
Defined.


(** C4 where Alice writes to Bob, who is not connected. *)
Lemma C4_witness :
  let st := Demo.aliceOnline.1 in
  let id := fresh (dom (messages st)) in
  let st' := exec (onMessage Demo.castObjectId Demo.objectId 1 Demo.alice "alice"
                     (chat_message (Some (Demo.chat Demo.bob "hi")))) st in
  log st' = (log st ++ [Send 1 (message_sent id Demo.bob "hi" (now st) Message.sent)])%list
  /\ messages st !! id = None
  /\ (exists m, messages st' = <[id := m]> (messages st)
                /\ Message.sender m = Demo.alice
                /\ Message.receiver m = Demo.objectId Demo.bob
                /\ Message.status m = Message.sent /\ Message.isRead m = false)
  /\ users st' = users st.
Proof.
  apply (C4_chat_message_offline Demo.castObjectId Demo.objectId Demo.aliceOnline.1 1
           Demo.alice "alice" (Demo.chat Demo.bob "hi") Demo.bob "hi");
    vm_compute; reflexivity.
Defined.

(** C5 where Alice writes to herself. *)
Lemma C5_witness :
  let st := Demo.aliceOnline.1 in
  let st' := exec (onMessage Demo.castObjectId Demo.objectId 1 Demo.alice "alice"
                     (chat_message (Some (Demo.chat Demo.alice "hi")))) st in
  messages st' = messages st
  /\ users st' = users st
  /\ connectedClients st' = connectedClients st
  /\ (isOpen 1 st = true ->
      exists msg, log st' = (log st ++ [Send 1 (error msg (now st))])%list).
Proof.
  apply (C5_invalid_chat_message_rejected Demo.castObjectId Demo.objectId
           Demo.aliceOnline.1 1 Demo.alice "alice"
           (Some (Demo.chat Demo.alice "hi"))).
  right. right. vm_compute. reflexivity.
Defined.

(** C6 where Bob, on socket 2, marks the one waiting message of Alice read,
    twice, and writes her id in upper case. *)
Lemma C6_witness :
  let st := Demo.mailWaiting.1 in
  let handler := onMessage Demo.castObjectId Demo.objectId 2 Demo.bob "bob"
                   (mark_read (Some (Demo.readFrom Demo.ALICE))) in
  let N := size (unread (Demo.objectId Demo.ALICE) Demo.bob st) in
  let st1 := exec handler st in
  let st2 := exec handler st1 in
  (forall id m, unread (Demo.objectId Demo.ALICE) Demo.bob st !! id = Some m ->
     exists m', messages st1 !! id = Some m'
                /\ Message.isRead m' = true
                /\ Message.status m' = Message.read
                /\ Message.readAt m' = Some (now st))
  /\ (forall id, unread (Demo.objectId Demo.ALICE) Demo.bob st !! id = None ->
      messages st1 !! id = messages st !! id)
  /\ log st1 = (log st ++ readNotice Demo.ALICE Demo.bob "bob" st
                       ++ [Send 2 (mark_read_success Demo.ALICE N)])%list
  /\ unread (Demo.objectId Demo.ALICE) Demo.bob st1 = ∅
  /\ messages st2 = messages st1
  /\ log st2 = (log st1 ++ readNotice Demo.ALICE Demo.bob "bob" st1
                        ++ [Send 2 (mark_read_success Demo.ALICE 0)])%list.
Proof.
  apply (C6_mark_read_idempotent Demo.castObjectId Demo.objectId Demo.mailWaiting.1 2
           Demo.bob "bob" (Demo.readFrom Demo.ALICE) Demo.ALICE);
    try (vm_compute; reflexivity).
  discriminate.
Defined.

(** C8 for socket 1, Alice's, when Carol's status is broadcast while Alice
    and Bob are online. *)
Lemma C8_witness :
  received 1 (broadcastUserStatus Demo.carol "carol" true Demo.bothOnline.1)
  = (received 1 Demo.bothOnline.1
     ++ if live 1 Demo.bothOnline.1 && negb (boundTo 1 Demo.carol Demo.bothOnline.1)
        then [statusMessage Demo.carol "carol" true (now Demo.bothOnline.1)]
        else [])%list.
Proof.
  exact (proj1 (C8_presence_broadcast Demo.bothOnline.1 1) Demo.carol "carol" true).
Defined.

(** C9 where a connection presents a token that does not verify. *)
Lemma C9_witness :
  let st := Demo.boot.1 in
  let st' := exec (dispatch Demo.verifyToken Demo.castObjectId Demo.objectId
                     (Connect 1 (Some "forged.jwt"))) st in
  let st'' := exec (dispatch Demo.verifyToken Demo.castObjectId Demo.objectId
                      (Closed 1)) st' in
  (forall c1 c2, closeCode c1 = closeCode c2 -> c1 = c2)
  /\ (exists msg, log st' = (log st ++ [Send 1 (error msg (now st));
                                        CloseFrame 1 (closeCode InvalidCredential)])%list)
  /\ connectedClients st' = connectedClients st
  /\ users st' = users st
  /\ listener 1 st' = None
  /\ connectedClients st'' = connectedClients st
  /\ users st'' = users st
  /\ log st'' = log st'
  /\ (forall ws2 uid user old,
        connectedClients st !! uid = Some old -> isOpen old st = true ->
        CloseFrame old (closeCode Superseded)
        ∈ log (registerConnection ws2 uid user st).1).
Proof.
  apply (C9_rejected_handshake Demo.castObjectId Demo.objectId Demo.verifyToken
           Demo.boot.1 1 (Some "forged.jwt") InvalidCredential);
    vm_compute; reflexivity.
Defined.

(** ** Runs of the model *)

(** Alice's handshake: registry write, welcome, snapshot. *)
Example run_first_connection :
  log Demo.aliceOnline.1
  = [RegistrySet Demo.alice 1;
     Send 1 (connection_established Demo.alice "alice");
     Send 1 (online_users [(Demo.alice, "alice")] 1 100)].
Proof. vm_compute. reflexivity. Qed.

(** A token of a deleted account is closed with 4003, a token whose payload
    is not an ObjectId with 4004, no token with 4001. *)
Example run_rejections :
  let attempt token :=
    log (Demo.go [Fire (Connect 1 token); Resume 0] Demo.boot).1 in
  attempt (Some "ghost.jwt") = [Send 1 (error "User not found." 100); CloseFrame 1 4003]
  /\ attempt (Some "odd.jwt")
     = [Send 1 (error "Server error during authentication." 100); CloseFrame 1 4004]
  /\ attempt None
     = [Send 1 (error "Authentication required. Please provide a valid token." 100);
        CloseFrame 1 4001].
Proof. vm_compute. repeat split; reflexivity. Qed.

(** Two heartbeat ticks without a pong terminate the connection; the first
    one pings it. *)
Example run_heartbeat :
  let c1 := Demo.go [Fire Heartbeat] Demo.aliceOnline in
  let c2 := Demo.go [Fire Heartbeat] c1 in
  last (log c1.1) = Some (Ping 1)
  /\ last (log c2.1) = Some (Terminate 1)
  /\ isOpen 1 c2.1 = false.
Proof. vm_compute. repeat split; reflexivity. Qed.

(** Bob marks Alice's waiting message read and writes her id in upper case:
    the store casts it, so the message is marked and counted; the registry
    is asked for the string as written, so Alice, online on socket 1, gets
    no [messages_read]. *)
Example run_mark_read_other_spelling :
  let c := Demo.go [Fire (Receive 2 (mark_read (Some (Demo.readFrom Demo.ALICE))));
                    Resume 3; Resume 3] Demo.mailWaiting in
  Message.status <$> messages c.1 !! 0 = Some Message.read
  /\ last (log c.1) = Some (Send 2 (mark_read_success Demo.ALICE 1))
  /\ received 1 c.1 = received 1 Demo.mailWaiting.1.
Proof. vm_compute. repeat split; reflexivity. Qed.

(** After the late ['close'] of the superseded socket, a message for Alice
    is stored but not delivered, although her socket 2 is open. *)
Example run_after_late_close :
  let c := Demo.go (Demo.connect 3 "bob.jwt" 3
                    ++ [Fire (Receive 3 (chat_message (Some (Demo.chat Demo.alice "hi"))));
                        Resume 4; Resume 4])%list
             (Demo.go Demo.lateClose Demo.aliceTwice) in
  isOpen 2 c.1 = true
  /\ last (log c.1) = Some (Send 3 (message_sent 0 Demo.alice "hi" 100 Message.sent))
  /\ Message.status <$> messages c.1 !! 0 = Some Message.sent.
Proof. vm_compute. repeat split; reflexivity. Qed.


(** * Further properties of the gateway *)

Section Footprint_facts.

Variable verifyToken : string -> option string.
Variable castObjectId : string -> bool.
Variable objectId : string -> ObjectId.

Lemma always_mono (R R' : St -> St -> Prop) t :
  (forall a b, R a b -> R' a b) -> always R t -> always R' t.
Proof.
  intros Hsub. revert t. fix IH 1. intros [|k]; simpl; [auto|].
  intros H st. specialize (H st). destruct (k st) as [st' t'].
  destruct H as [H1 H2]. split; [apply Hsub, H1|apply IH, H2].
Qed.

Lemma within_mono (R R' : St -> St -> Prop) st p :
  (forall a b, R a b -> R' a b) -> within R st p -> within R' st p.
Proof.
  intros Hsub [H1 H2]. split; [apply Hsub, H1|eapply always_mono; eauto].
Qed.

(** Running a task to its end stays within a preorder its segments keep. *)
Lemma always_run (R : St -> St -> Prop) `{!Reflexive R, !Transitive R} t st :
  always R t -> R st (run t st).
Proof.
  revert t st. fix IH 1. intros [|k] st; simpl; [reflexivity|].
  intros H. specialize (H st). destruct (k st) as [st' t'].
  destruct H as [H1 H2]. transitivity st'; [exact H1|apply IH, H2].
Qed.

Lemma within_exec (R : St -> St -> Prop) `{!Reflexive R, !Transitive R} h st :
  within R st (h st) -> R st (exec h st).
Proof.
  unfold within, exec. destruct (h st) as [st' t]. simpl. intros [H1 H2].
  transitivity st'; [exact H1|apply always_run; assumption].
Qed.

(** [await] composes: the operation, then the continuation when resumed. *)
Lemma within_await (P : St -> St -> Prop) {X} (op : St -> St * X)
    (k : X -> St -> St * Task) st :
  rtc P st (op st).1 ->
  (forall r st0, within (rtc P) st0 (k r st0)) ->
  within (rtc P) st (await op k st).
Proof.
  intros Hop Hk. unfold within, await. destruct (op st) as [st' r]. simpl in *.
  split; [exact Hop|]. intros st0. specialize (Hk r st0).
  destruct (k r st0) as [st1 t1]. exact Hk.
Qed.

Lemma within_after (P : St -> St -> Prop) st st1 p :
  rtc P st st1 -> within (rtc P) st1 p -> within (rtc P) st p.
Proof. intros H [H1 H2]. split; [etransitivity; eauto|exact H2]. Qed.

Lemma within_done (P : St -> St -> Prop) st st1 :
  rtc P st st1 -> within (rtc P) st (st1, Done).
Proof. intros H. split; [exact H|exact I]. Qed.

(** *** The router *)

Lemma rsteps_sendToClient ws m st :
  rtc (RouterPrim castObjectId objectId) st (sendToClient ws m st).
Proof.
  unfold sendToClient, ws_send. destruct (isOpen ws st) eqn:Ho; [|reflexivity].
  apply rtc_once, router_send, Ho.
Qed.

Lemma rsteps_sendError ws msg st :
  rtc (RouterPrim castObjectId objectId) st (sendError ws msg st).
Proof. apply rsteps_sendToClient. Qed.

Lemma handleChatMessage_within ws me myname data st :
  within (rtc (RouterPrim castObjectId objectId)) st
         (handleChatMessage castObjectId objectId ws me myname data st).
Proof.
  unfold handleChatMessage.
  destruct (negb (truthy (data !! "receiverId")) || negb (truthy (data !! "content")))
    eqn:Hmiss; [apply within_done, rsteps_sendError|].
  destruct (bool_decide (data !! "receiverId" = Some me)) eqn:Hself;
    [apply within_done, rsteps_sendError|].
  apply bool_decide_eq_false in Hself.
  apply within_await.
  - unfold Message_create.
    destruct (schemaAccepts _ _ _ _ _) eqn:Hs; [|reflexivity].
    apply rtc_once, router_create; [|exact Hs].
    intros E. apply Hself. apply orb_false_elim in Hmiss as [Hr _].
    apply negb_false_iff in Hr. destruct (data !! "receiverId"); [|discriminate Hr].
    simpl in E. congruence.
  - intros [[newId newMessage]|] st0; [|apply within_done, rsteps_sendError].
    apply within_await; [reflexivity|]. intros _ st1.
    eapply within_after; [apply rsteps_sendToClient|].
    destruct (connectedClients _ !! _) as [rc|]; [|apply within_done; reflexivity].
    destruct (isOpen rc _); [|apply within_done; reflexivity].
    eapply within_after; [apply rsteps_sendToClient|].
    apply within_await.
    + apply rtc_once, router_delivered.
    + intros _ st2. apply within_done, rsteps_sendToClient.
Qed.

Lemma handleTypingIndicator_within ws me myname data b st :
  within (rtc (RouterPrim castObjectId objectId)) st
         (handleTypingIndicator ws me myname data b st).
Proof.
  unfold handleTypingIndicator.
  destruct (negb (truthy (data !! "receiverId")));
    [apply within_done, rsteps_sendError|].
  destruct (connectedClients st !! _) as [rc|]; [|apply within_done; reflexivity].
  destruct (isOpen rc st); apply within_done;
    [apply rsteps_sendToClient|reflexivity].
Qed.

Lemma handleMarkRead_within ws me myname data st :
  within (rtc (RouterPrim castObjectId objectId)) st
         (handleMarkRead castObjectId objectId ws me myname data st).
Proof.
  unfold handleMarkRead.
  destruct (negb (truthy (data !! "senderId")));
    [apply within_done, rsteps_sendError|].
  apply within_await.
  - unfold Message_markAsRead. destruct (_ && _); [|reflexivity].
    apply rtc_once, router_read.
  - intros [n|] st0; [|apply within_done, rsteps_sendError].
    apply within_done.
    etransitivity; [|apply rsteps_sendToClient].
    destruct (connectedClients st0 !! _) as [c|]; [|reflexivity].
    destruct (isOpen c st0); [apply rsteps_sendToClient|reflexivity].
Qed.

Lemma sendOnlineUsersToClient_within ws st :
  within (rtc (RouterPrim castObjectId objectId)) st (sendOnlineUsersToClient ws st).
Proof.
  unfold sendOnlineUsersToClient. apply within_await; [reflexivity|].
  intros l st0. apply within_done, rsteps_sendToClient.
Qed.

Lemma onMessage_within ws me myname raw st :
  within (rtc (RouterPrim castObjectId objectId)) st
         (onMessage castObjectId objectId ws me myname raw st).
Proof.
  assert (Hinv : within (rtc (RouterPrim castObjectId objectId)) st (invalidFormat ws st))
    by apply within_done, rsteps_sendError.
  destruct raw as [[ty d]|]; [|exact Hinv].
  unfold onMessage, handleMessage, destructure. cbn [type data].
  repeat match goal with
         | |- context [if ?b then _ else _] => destruct b
         end;
    try (destruct d as [d|]; [|exact Hinv]);
    first [ apply handleChatMessage_within
          | apply handleTypingIndicator_within
          | apply handleMarkRead_within
          | apply sendOnlineUsersToClient_within
          | apply within_done, rsteps_sendError ].
Qed.

(** *** The whole gateway *)

Lemma steps_router st st' :
  rtc (RouterPrim castObjectId objectId) st st' -> rtc (Prim castObjectId objectId) st st'.
Proof. apply rtc_subrel. intros a b. apply prim_router. Qed.

Lemma within_router st p :
  within (rtc (RouterPrim castObjectId objectId)) st p -> within (rtc (Prim castObjectId objectId)) st p.
Proof. apply within_mono. apply steps_router. Qed.

Lemma steps_sendToClient ws m st : rtc (Prim castObjectId objectId) st (sendToClient ws m st).
Proof. apply steps_router, rsteps_sendToClient. Qed.

Lemma steps_ws_close s code st : rtc (Prim castObjectId objectId) st (ws_close s code st).
Proof.
  unfold ws_close. destruct (isOpen s st); [|reflexivity].
  eapply rtc_l; [apply (prim_socket _ _ (setReadyState CLOSING) s)|].
  - intros k; simpl; discriminate.
  - apply rtc_once, prim_control. discriminate.
Qed.

Lemma steps_ws_terminate s st : rtc (Prim castObjectId objectId) st (ws_terminate s st).
Proof.
  unfold ws_terminate.
  destruct (readyState <$> sockets st !! s) as [[]|]; try reflexivity;
    (eapply rtc_l; [apply (prim_socket _ _ (setReadyState CLOSING) s);
                    intros k; simpl; discriminate
                   |apply rtc_once, prim_control; discriminate]).
Qed.

Lemma steps_ws_ping s st : rtc (Prim castObjectId objectId) st (ws_ping s st).
Proof.
  unfold ws_ping. destruct (isOpen s st); [|reflexivity].
  apply rtc_once, prim_control. discriminate.
Qed.

Lemma steps_forEach (f : nat -> St -> St) st :
  (forall c s, rtc (Prim castObjectId objectId) s (f c s)) ->
  rtc (Prim castObjectId objectId) st (forEach f st).
Proof.
  intros Hf. unfold forEach. generalize (elements (clients st)). intros l.
  revert st. induction l as [|a l IH]; intros st; simpl; [reflexivity|].
  etransitivity; [apply Hf|apply IH].
Qed.

Lemma steps_ws_send s e st : rtc (Prim castObjectId objectId) st (ws_send s e st).
Proof.
  unfold ws_send. destruct (isOpen s st) eqn:Ho; [|reflexivity].
  apply rtc_once, prim_router, router_send, Ho.
Qed.

Lemma steps_broadcastUserStatus uid uname b st :
  rtc (Prim castObjectId objectId) st (broadcastUserStatus uid uname b st).
Proof.
  unfold broadcastUserStatus. apply steps_forEach. intros c s.
  destruct (_ && _); [apply steps_ws_send|reflexivity].
Qed.

Lemma steps_pushOnlineUsers l st :
  rtc (Prim castObjectId objectId) st (pushOnlineUsers l st).
Proof.
  unfold pushOnlineUsers. apply steps_forEach. intros c s.
  destruct (isOpen c s); [apply steps_ws_send|reflexivity].
Qed.

Lemma steps_heartbeat st : rtc (Prim castObjectId objectId) st (heartbeat st).
Proof.
  unfold heartbeat. apply steps_forEach. intros c s.
  destruct (bool_decide _); [apply steps_ws_terminate|].
  eapply rtc_l; [apply (prim_socket _ _ (setIsAlive false) c); auto|].
  apply steps_ws_ping.
Qed.

Lemma reject_within ws msg code st :
  within (rtc (Prim castObjectId objectId)) st (reject ws msg code st).
Proof.
  apply within_done. unfold reject, sendError.
  etransitivity; [apply steps_sendToClient|apply steps_ws_close].
Qed.

Lemma broadcastOnlineUsers_within k st :
  (forall st0, within (rtc (Prim castObjectId objectId)) st0 (k st0)) ->
  within (rtc (Prim castObjectId objectId)) st (broadcastOnlineUsers k st).
Proof.
  intros Hk. unfold broadcastOnlineUsers. apply within_await; [reflexivity|].
  intros l st0. eapply within_after; [apply steps_pushOnlineUsers|apply Hk].
Qed.

Lemma registerConnection_within ws uid user st :
  within (rtc (Prim castObjectId objectId)) st (registerConnection ws uid user st).
Proof.
  unfold registerConnection.
  set (st1 := with_sockets _ st).
  assert (H1 : rtc (Prim castObjectId objectId) st st1)
    by (apply rtc_once, prim_socket; auto).
  set (st2 := match connectedClients st1 !! uid with
              | Some oldConnection => ws_close oldConnection NEW_CONNECTION st1
              | None => st1
              end).
  assert (H2 : rtc (Prim castObjectId objectId) st1 st2)
    by (subst st2; destruct (connectedClients st1 !! uid);
        [apply steps_ws_close|reflexivity]).
  eapply within_after; [exact H1|]. eapply within_after; [exact H2|].
  apply (within_after _ _ (emit (RegistrySet uid ws) (with_registry <[uid:=ws]> st2))).
  { eapply rtc_l; [apply (prim_registry _ _ <[uid:=ws]>)|].
    apply rtc_once, prim_control. discriminate. }
  apply within_await.
  - apply rtc_once, prim_presence. reflexivity.
  - intros _ st0.
    eapply within_after; [apply steps_sendToClient|].
    eapply within_after; [apply steps_broadcastUserStatus|].
    apply broadcastOnlineUsers_within. intros st3.
    apply within_done, rtc_once, prim_socket. auto.
Qed.

Lemma onConnection_within ws token st :
  within (rtc (Prim castObjectId objectId)) st
         (onConnection verifyToken castObjectId objectId ws token st).
Proof.
  unfold onConnection.
  destruct (negb (truthy token)); [apply reject_within|].
  destruct (verifyToken _) as [id|]; [|apply reject_within].
  apply within_await.
  - unfold User_findById. destruct (castObjectId id); reflexivity.
  - intros [[user|]|] st0;
      [apply registerConnection_within|apply reject_within|apply reject_within].
Qed.

Lemma onClose_within ws me myname st :
  within (rtc (Prim castObjectId objectId)) st (onClose ws me myname st).
Proof.
  unfold onClose.
  apply (within_after _ _ (emit (RegistryDelete me) (with_registry (delete me) st))).
  { eapply rtc_l; [apply (prim_registry _ _ (delete me))|].
    apply rtc_once, prim_control. discriminate. }
  apply within_await.
  - apply rtc_once, prim_presence. reflexivity.
  - intros _ st0.
    eapply within_after; [apply steps_broadcastUserStatus|].
    apply broadcastOnlineUsers_within. intros st3. apply within_done. reflexivity.
Qed.

(** Every event is handled by atomic changes of the footprint, in the
    segment that starts at once and in every later one. *)
Lemma dispatch_within ev st :
  within (rtc (Prim castObjectId objectId)) st (dispatch verifyToken castObjectId objectId ev st).
Proof.
  destruct ev as [ws token|ws raw|ws|ws| |d]; unfold dispatch.
  - destruct (sockets st !! ws) eqn:Hs; [apply within_done; reflexivity|].
    eapply within_after; [apply rtc_once, prim_accept, Hs|].
    apply onConnection_within.
  - destruct (readyState <$> sockets st !! ws) as [[]|];
      try (apply within_done; reflexivity);
      (destruct (listener ws st) as [[me myname]|];
       [apply within_router, onMessage_within|apply within_done; reflexivity]).
  - destruct (readyState <$> sockets st !! ws) as [[]|];
      try (apply within_done; reflexivity);
      (eapply within_after;
       [eapply rtc_l;
        [apply (prim_socket _ _ (setReadyState CLOSED) ws); intros k; simpl; discriminate
        |apply rtc_once, prim_forget]|];
       destruct (listener ws st) as [[me myname]|];
       [apply onClose_within|apply within_done; reflexivity]).
  - destruct (listener ws st); apply within_done; [|reflexivity].
    apply rtc_once, prim_socket. auto.
  - apply within_done, steps_heartbeat.
  - apply within_done, rtc_once, prim_tick.
Qed.

(** On any schedule, from any state with no handler in flight, the state
    changes by atomic changes of the footprint only. *)
Lemma play_steps acts st ts :
  Forall (always (rtc (Prim castObjectId objectId))) ts ->
  rtc (Prim castObjectId objectId) st (play verifyToken castObjectId objectId acts (st, ts)).1
  /\ Forall (always (rtc (Prim castObjectId objectId)))
            (play verifyToken castObjectId objectId acts (st, ts)).2.
Proof.
  revert st ts. induction acts as [|a acts IH]; intros st ts Hts; simpl.
  - split; [reflexivity|exact Hts].
  - assert (Ha : rtc (Prim castObjectId objectId) st (act verifyToken castObjectId objectId a (st, ts)).1
                 /\ Forall (always (rtc (Prim castObjectId objectId)))
                           (act verifyToken castObjectId objectId a (st, ts)).2).
    { destruct a as [ev|i]; simpl.
      - pose proof (dispatch_within ev st) as [H1 H2].
        destruct (dispatch verifyToken castObjectId objectId ev st) as [st' t]. simpl in *.
        split; [exact H1|]. apply Forall_app. split; [exact Hts|].
        constructor; [exact H2|constructor].
      - destruct (ts !! i) as [[|k]|] eqn:Hi; simpl; try (split; [reflexivity|exact Hts]).
        pose proof (Forall_lookup_1 _ _ _ _ Hts Hi) as Hk. simpl in Hk.
        specialize (Hk st). destruct (k st) as [st' t]. destruct Hk as [H1 H2].
        simpl. split; [exact H1|]. apply Forall_insert; assumption. }
    destruct Ha as [Ha1 Ha2].
    destruct (act verifyToken castObjectId objectId a (st, ts)) as [st1 ts1]. simpl in *.
    destruct (IH st1 ts1 Ha2) as [H1 H2].
    split; [etransitivity; eauto|exact H2].
Qed.

(** *** What holds on every schedule *)

Lemma prim_keepsMessages st st' :
  Prim castObjectId objectId st st' -> keepsMessages st st'.
Proof.
  assert (Hrefl : forall m, sameLetter m m) by (intros m; repeat split).
  intros H id m Hm.
  destruct H as [st st' H|ev st|f s st|ws st|ws st|f st|uid f st|d st];
    try (exists m; split; [exact Hm|apply Hrefl]).
  destruct H as [s e st|me r c mt st|i st|a b st].
  - exists m; split; [exact Hm|apply Hrefl].
  - exists m; split; [|apply Hrefl]. simpl. rewrite lookup_insert_ne; [exact Hm|].
    intros E. pose proof (is_fresh (dom (messages st))) as Hf.
    apply Hf. rewrite E. apply elem_of_dom. eauto.
  - simpl. destruct (decide (i = id)) as [->|Hne].
    + exists (setStatus Message.delivered m).
      rewrite lookup_alter_eq, Hm. split; [reflexivity|].
      repeat split.
    + exists m. rewrite lookup_alter_ne by exact Hne. auto.
  - simpl. rewrite lookup_fmap, Hm. simpl.
    destruct (unreadFrom objectId a b m); eexists; split; try reflexivity; repeat split.
Qed.

Lemma steps_keepsMessages st st' :
  rtc (Prim castObjectId objectId) st st' -> keepsMessages st st'.
Proof.
  induction 1 as [st|st st1 st2 H _ IH].
  - intros id m Hm. exists m. split; [exact Hm|repeat split].
  - intros id m Hm. destruct (prim_keepsMessages _ _ H id m Hm) as (m1 & Hm1 & S1).
    destruct (IH id m1 Hm1) as (m2 & Hm2 & S2). exists m2. split; [exact Hm2|].
    unfold sameLetter in *. intuition congruence.
Qed.


Lemma schemaAccepts_wellFormed me r c mt t :
  schemaAccepts castObjectId me r c mt = true ->
  wellFormed (Message.mk me (objectId r) (trim c) mt false None Message.sent t).
Proof.
  unfold schemaAccepts. intros H.
  apply andb_prop in H as [H Hmt]. apply andb_prop in H as [H Hlen].
  apply andb_prop in H as [H Hc]. apply andb_prop in H as [Hs Hr].
  apply bool_decide_eq_true in Hmt. apply Nat.leb_le in Hlen.
  apply negb_true_iff, String.eqb_neq in Hc.
  repeat split; simpl; auto.
Qed.

Lemma prim_wellFormed st st' :
  Prim castObjectId objectId st st' ->
  (forall id m, messages st !! id = Some m ->
     wellFormed m /\ readConsistent m) ->
  forall id m, messages st' !! id = Some m ->
     wellFormed m /\ readConsistent m.
Proof.
  intros H Hst id m.
  destruct H as [st st' H|ev st|f s st|ws st|ws st|f st|uid f st|d st];
    try (apply Hst).
  destruct H as [s e st|me r c mt st Hne Hs|i st|a b st]; simpl.
  - apply Hst.
  - intros Hm. apply lookup_insert_Some in Hm as [[_ <-]|[_ Hm]]; [|eapply Hst, Hm].
    split; [apply schemaAccepts_wellFormed; assumption|].
    split; simpl; [|discriminate].
    split; [discriminate|intros [x Hx]; discriminate Hx].
  - intros Hm. apply lookup_alter_Some in Hm as [(_ & m0 & Hm0 & ->)|[_ Hm]];
      [|eapply Hst, Hm].
    destruct (Hst _ _ Hm0) as [Hw [Hr1 Hr2]]. split; [exact Hw|].
    split; [exact Hr1|]. simpl. discriminate.
  - rewrite lookup_fmap. intros Hm.
    destruct (messages st !! id) as [m0|] eqn:Hm0; [|discriminate Hm].
    simpl in Hm. injection Hm as <-. destruct (Hst _ _ Hm0) as [Hw Hr].
    destruct (unreadFrom objectId a b m0); [|auto]. split; [exact Hw|].
    split; simpl; [|reflexivity]. split; eauto.
Qed.

(** On any schedule every stored message satisfies the validators of the
    schema (non-empty trimmed content of at most 5000 characters, a type of
    the enum), its read flag is set exactly when its read time is, and status
    [read] implies the read flag, provided the store started so. *)
Theorem schedule_keeps_messages_well_formed acts st :
  (forall id m, messages st !! id = Some m ->
     wellFormed m /\ readConsistent m) ->
  forall id m,
    messages (play verifyToken castObjectId objectId acts (st, [])).1 !! id = Some m ->
    wellFormed m /\ readConsistent m.
Proof.
  intros Hst. destruct (play_steps acts st [] (Forall_nil_2 _)) as [H _].
  revert H Hst. generalize (play verifyToken castObjectId objectId acts (st, [])).1.
  intros st' H. induction H as [st|st st1 st2 H _ IH]; [auto|].
  intros Hst. apply IH. eapply prim_wellFormed; eauto.
Qed.

Lemma prim_sameAccounts st st' : Prim castObjectId objectId st st' -> sameAccounts st st'.
Proof.
  intros H id.
  destruct H as [st st' H|ev st|f s st|ws st|ws st|f st|uid f st Hf|d st];
    try reflexivity.
  - destruct H; reflexivity.
  - simpl. destruct (decide (uid = id)) as [->|Hne].
    + rewrite lookup_alter_eq. destruct (users st !! id); simpl; [|reflexivity].
      f_equal. apply Hf.
    + rewrite lookup_alter_ne by exact Hne. reflexivity.
Qed.

(** On any schedule the gateway creates no account, deletes none and renames
    none; presence and last-seen time are all it writes. *)
Theorem schedule_keeps_accounts acts st id :
  User.username <$> users (play verifyToken castObjectId objectId acts (st, [])).1 !! id
  = User.username <$> users st !! id.
Proof.
  destruct (play_steps acts st [] (Forall_nil_2 _)) as [H _].
  revert H. generalize (play verifyToken castObjectId objectId acts (st, [])).1.
  intros st' H. induction H as [st|st st1 st2 H _ IH]; [reflexivity|].
  rewrite IH. apply prim_sameAccounts, H.
Qed.

Lemma received_emit_control c ev st :
  (forall s e, ev <> Send s e) -> received c (emit ev st) = received c st.
Proof.
  intros Hev. unfold received; simpl. rewrite omap_app.
  destruct ev; try (simpl; apply app_nil_r). exfalso. eapply Hev; reflexivity.
Qed.

Lemma prim_closedStaysClosed st st' :
  Prim castObjectId objectId st st' -> closedStaysClosed st st'.
Proof.
  intros H s k Hk Hclosed.
  assert (Hno : isOpen s st = false).
  { unfold isOpen. rewrite Hk. simpl. apply bool_decide_eq_false. congruence. }
  destruct H as [st st' H|ev st Hev|f c st Hf|ws st Hws|ws st|f st|uid f st Hf|d st];
    try solve [split; [exists k; split; assumption|reflexivity]].
  - destruct H as [c e st Ho| | |];
      try solve [split; [exists k; split; assumption|reflexivity]].
    split; [exists k; auto|]. rewrite received_emit_send.
    rewrite decide_False by congruence. apply app_nil_r.
  - split; [exists k; auto|apply received_emit_control, Hev].
  - split; [|reflexivity]. simpl. destruct (decide (c = s)) as [->|Hne].
    + exists (f k). rewrite lookup_alter_eq, Hk. split; [reflexivity|].
      intros E. apply Hclosed, Hf, E.
    + exists k. rewrite lookup_alter_ne by exact Hne. auto.
  - split; [|reflexivity]. exists k. simpl.
    rewrite lookup_insert_ne by congruence. auto.
Qed.


Lemma rprim_frame st st' :
  RouterPrim castObjectId objectId st st' ->
  sockets st' = sockets st /\ clients st' = clients st
  /\ connectedClients st' = connectedClients st /\ users st' = users st
  /\ now st' = now st.
Proof. intros []; repeat split. Qed.

(** Whatever a client sends, handling it opens or closes no socket and
    changes neither the client set, nor the registry, nor any account, nor
    the clock: the router only sends frames and writes messages. *)
Theorem router_touches_messages_only ws me myname raw st :
  let st' := exec (onMessage castObjectId objectId ws me myname raw) st in
  sockets st' = sockets st /\ clients st' = clients st
  /\ connectedClients st' = connectedClients st /\ users st' = users st
  /\ now st' = now st.
Proof.
  intros st'. subst st'.
  pose proof (within_exec (rtc (RouterPrim castObjectId objectId)) _ st
                (onMessage_within ws me myname raw st)) as H.
  revert H. generalize (exec (onMessage castObjectId objectId ws me myname raw) st).
  intros st' H. induction H as [st|st st1 st2 H _ IH]; [repeat split|].
  destruct (rprim_frame _ _ H) as (A & B & C & D & E).
  destruct IH as (A' & B' & C' & D' & E'). repeat split; congruence.
Qed.

(** *** Typing signals, snapshot requests and envelopes the router rejects *)

(** A typing signal with a receiver is relayed to the receiver's registered
    connection when that is open, and has no effect at all otherwise: nothing
    is stored and nothing goes back to the sender. *)
Theorem typing_is_relayed_only st ws me myname b (data : gmap string string) r :
  data !! "receiverId" = Some r ->
  r <> EmptyString ->
  exec (onMessage castObjectId objectId ws me myname (typing b (Some data))) st
  = match connectedClients st !! r with
    | Some rc =>
        if isOpen rc st then emit (Send rc (typing_indicator me myname b)) st else st
    | None => st
    end.
Proof.
  intros Hr Hne.
  assert (exec (handleTypingIndicator ws me myname data b) st
          = match connectedClients st !! r with
            | Some rc =>
                if isOpen rc st then emit (Send rc (typing_indicator me myname b)) st
                else st
            | None => st
            end) as H.
  { unfold exec, handleTypingIndicator. rewrite Hr. simpl.
    rewrite (proj2 (String.eqb_neq r EmptyString)) by exact Hne. simpl.
    destruct (connectedClients st !! r) as [rc|]; [|reflexivity].
    destruct (isOpen rc st) eqn:Ho; [|reflexivity].
    simpl. rewrite sendToClient_open by exact Ho. reflexivity. }
  destruct b; exact H.
Qed.

(** The snapshot of the store that [get_online_users] and the presence
    refresh send: exactly the accounts whose presence flag is set, each
    once, under their names. *)
Lemma User_find_online_spec st id name :
  (id, name) ∈ (User_find_online st).2
  <-> exists u, users st !! id = Some u /\ User.isOnline u = true
                /\ User.username u = name.
Proof.
  unfold User_find_online. simpl. rewrite list_elem_of_fmap. split.
  - intros ([i u] & E & Hin). simpl in E. injection E as -> ->.
    apply list_elem_of_filter in Hin as [Hon Hin].
    apply elem_of_map_to_list in Hin. eauto.
  - intros (u & Hu & Hon & <-). exists (id, u). split; [reflexivity|].
    apply list_elem_of_filter. split; [exact Hon|]. apply elem_of_map_to_list, Hu.
Qed.

Lemma User_find_online_NoDup st : NoDup (User_find_online st).2.*1.
Proof.
  unfold User_find_online. simpl. rewrite <- list_fmap_compose.
  eapply sublist_NoDup; [apply (NoDup_fst_map_to_list (users st))|].
  apply fmap_sublist, sublist_filter.
Qed.

(** [get_online_users] answers the requester alone, whatever [data] holds,
    with the accounts whose presence flag is set in the store (each once) and
    their number. *)
Theorem snapshot_request_answers_requester st ws me myname data :
  let l := (User_find_online st).2 in
  exec (onMessage castObjectId objectId ws me myname (get_online_users data)) st
  = sendToClient ws (online_users l (length l) (now st)) st
  /\ (forall id name,
       (id, name) ∈ l
       <-> exists u, users st !! id = Some u /\ User.isOnline u = true
                     /\ User.username u = name)
  /\ NoDup l.*1.
Proof.
  split; [reflexivity|]. split; [apply User_find_online_spec|].
  apply User_find_online_NoDup.
Qed.

(** An envelope of unknown or missing type, a payload that is not JSON and
    a known request without its [data] member are answered with one [error]
    envelope and nothing else happens; in particular the socket stays as it
    was. *)
Theorem rejected_envelopes st ws me myname :
  (forall ty d, ty ∉ knownTypes ->
     exec (onMessage castObjectId objectId ws me myname (Some (mkMsg (Some ty) d))) st
     = sendError ws ("Unknown message type: " ++ ty) st)
  /\ (forall d,
       exec (onMessage castObjectId objectId ws me myname (Some (mkMsg None d))) st
       = sendError ws "Unknown message type: undefined" st)
  /\ exec (onMessage castObjectId objectId ws me myname None) st
     = sendError ws "Invalid message format. Please send valid JSON." st
  /\ (forall ty, ty ∈ knownTypes -> ty <> "get_online_users" ->
       exec (onMessage castObjectId objectId ws me myname (Some (mkMsg (Some ty) None))) st
       = sendError ws "Invalid message format. Please send valid JSON." st)
  /\ (forall msg, sockets (sendError ws msg st) = sockets st
                  /\ messages (sendError ws msg st) = messages st
                  /\ received ws (sendError ws msg st)
                     = (received ws st
                        ++ if isOpen ws st then [error msg (now st)] else [])%list).
Proof.
  split; [|split; [|split; [|split]]].
  - intros ty d Hty. unfold knownTypes in Hty.
    rewrite !not_elem_of_cons in Hty.
    destruct Hty as (H1 & H2 & H3 & H4 & H5 & _).
    unfold exec, onMessage, handleMessage. cbn [type data default].
    rewrite !(proj2 (String.eqb_neq ty _)) by assumption. reflexivity.
  - reflexivity.
  - reflexivity.
  - intros ty Hty Hne. unfold knownTypes in Hty.
    rewrite !elem_of_cons in Hty.
    destruct Hty as [->|[->|[->|[->|[->|Hty]]]]]; try reflexivity;
      [congruence|inversion Hty].
  - intros msg. unfold sendError. rewrite received_sendToClient, sendToClient_run.
    rewrite bool_decide_eq_true_2 by reflexivity. auto.
Qed.

(** *** The heartbeat *)

Lemma heartbeat_client a s :
  let s' := if bool_decide (isAlive <$> sockets s !! a = Some (Some false))
            then ws_terminate a s
            else ws_ping a (with_sockets (alter (setIsAlive false) a) s) in
  sockets s' = alter beat a (sockets s)
  /\ clients s' = clients s /\ connectedClients s' = connectedClients s
  /\ users s' = users s /\ messages s' = messages s /\ now s' = now s.
Proof.
  destruct (bool_decide _) eqn:Hb; simpl.
  - apply bool_decide_eq_true in Hb.
    destruct (sockets s !! a) as [k|] eqn:Hk; [|discriminate Hb].
    simpl in Hb. injection Hb as Hb.
    unfold ws_terminate. rewrite Hk. simpl.
    destruct (readyState k) eqn:Hr; simpl; (split; [|repeat split]);
      try (apply alter_ext; intros x Hx; assert (x = k) as -> by congruence;
           unfold beat; rewrite decide_True by exact Hb;
           rewrite decide_False by congruence; reflexivity).
    symmetry; apply alter_id; intros x Hx; assert (x = k) as -> by congruence;
      unfold beat; rewrite decide_True by exact Hb;
      rewrite decide_True by exact Hr; reflexivity.
  - apply bool_decide_eq_false in Hb.
    assert (Hs : alter (setIsAlive false) a (sockets s) = alter beat a (sockets s)).
    { apply alter_ext. intros k Hk. unfold beat. rewrite decide_False; [reflexivity|].
      intros E. apply Hb. rewrite Hk. simpl. rewrite E. reflexivity. }
    unfold ws_ping. destruct (isOpen _ _); simpl; (split; [exact Hs|repeat split]).
Qed.

Lemma heartbeat_clients (l : list nat) s :
  NoDup l ->
  let s' := foldl (fun acc ws =>
                     if bool_decide (isAlive <$> sockets acc !! ws = Some (Some false))
                     then ws_terminate ws acc
                     else ws_ping ws (with_sockets (alter (setIsAlive false) ws) acc))
                  s l in
  (forall x, sockets s' !! x
             = if decide (x ∈ l) then beat <$> sockets s !! x else sockets s !! x)
  /\ clients s' = clients s /\ connectedClients s' = connectedClients s
  /\ users s' = users s /\ messages s' = messages s /\ now s' = now s.
Proof.
  revert s. induction l as [|a l IH]; intros s Hnd; simpl.
  - repeat split.
  - apply NoDup_cons in Hnd as [Ha Hnd].
    destruct (heartbeat_client a s) as (Hs & Hc & Hr & Hu & Hm & Hn).
    simpl in Hs, Hc, Hr, Hu, Hm, Hn.
    set (s1 := if bool_decide (isAlive <$> sockets s !! a = Some (Some false))
               then ws_terminate a s
               else ws_ping a (with_sockets (alter (setIsAlive false) a) s)) in *.
    specialize (IH s1 Hnd). simpl in IH.
    destruct IH as (Hs' & Hc' & Hr' & Hu' & Hm' & Hn').
    split; [|repeat split; congruence].
    intros x. rewrite Hs', Hs.
    destruct (decide (x = a)) as [->|Hne].
    + rewrite decide_False by exact Ha. rewrite lookup_alter_eq.
      rewrite decide_True by left. reflexivity.
    + rewrite lookup_alter_ne by congruence.
      apply decide_ext. rewrite elem_of_cons. intuition congruence.
Qed.

Lemma heartbeat_frame st :
  (forall c, c ∈ clients st -> sockets (heartbeat st) !! c = beat <$> sockets st !! c)
  /\ clients (heartbeat st) = clients st.
Proof.
  destruct (heartbeat_clients (elements (clients st)) st (NoDup_elements _))
    as (Hs & Hc & _).
  split; [|exact Hc].
  intros c Hin. unfold heartbeat, forEach. rewrite Hs.
  apply decide_True, elem_of_elements, Hin.
Qed.

(** One heartbeat tick applies [beat] to the socket of every client and to
    no other socket: it terminates the sockets that did not answer the
    previous probe and marks the others as not having answered yet.  It
    leaves the client set, the registry, the accounts, the messages and the
    clock alone. *)
Theorem heartbeat_tick st :
  (forall c, sockets (heartbeat st) !! c
             = if decide (c ∈ clients st) then beat <$> sockets st !! c
               else sockets st !! c)
  /\ clients (heartbeat st) = clients st
  /\ connectedClients (heartbeat st) = connectedClients st
  /\ users (heartbeat st) = users st
  /\ messages (heartbeat st) = messages st
  /\ now (heartbeat st) = now st.
Proof.
  destruct (heartbeat_clients (elements (clients st)) st (NoDup_elements _))
    as (Hs & Hrest).
  split; [|exact Hrest].
  intros c. unfold heartbeat, forEach. rewrite Hs.
  apply decide_ext, elem_of_elements.
Qed.


(** A registered open client that answered the previous probe and answers
    the next one with a pong is still open after the following tick, and
    counts again as having answered. *)
Theorem answering_client_stays_open st c k uid uname :
  c ∈ clients st ->
  sockets st !! c = Some k ->
  readyState k = OPEN ->
  isAlive k <> Some false ->
  listening k = true ->
  userId k = Some uid ->
  username k = Some uname ->
  let st1 := heartbeat st in
  let st2 := (dispatch verifyToken castObjectId objectId (Pong c) st1).1 in
  isAlive <$> sockets st1 !! c = Some (Some false)
  /\ isAlive <$> sockets st2 !! c = Some (Some true)
  /\ isOpen c (heartbeat st2) = true.
Proof.
  intros Hc Hk Ho Ha Hl Hu Hn st1 st2.
  destruct (heartbeat_frame st) as (Hs1 & Hc1).
  assert (Hb : beat k = setIsAlive false k)
    by (unfold beat; rewrite decide_False by exact Ha; reflexivity).
  assert (Hk1 : sockets st1 !! c = Some (setIsAlive false k)).
  { unfold st1. rewrite Hs1 by exact Hc. rewrite Hk. simpl.
    rewrite Hb. reflexivity. }
  assert (E2 : st2 = with_sockets (alter (setIsAlive true) c) st1).
  { unfold st2, dispatch, listener. rewrite Hk1. simpl. rewrite Hl, Hu, Hn.
    reflexivity. }
  assert (Hk2 : sockets st2 !! c = Some (setIsAlive true (setIsAlive false k))).
  { rewrite E2. simpl. rewrite lookup_alter_eq, Hk1. reflexivity. }
  split; [rewrite Hk1; reflexivity|]. split; [rewrite Hk2; reflexivity|].
  destruct (heartbeat_frame st2) as (Hs2 & _).
  unfold isOpen.
  rewrite Hs2 by (rewrite E2; simpl; fold st1; unfold st1; rewrite Hc1; exact Hc).
  rewrite Hk2. simpl. apply bool_decide_eq_true_2.
  unfold beat. simpl. rewrite Ho. reflexivity.
Qed.

End Footprint_facts.

(** * Presence over the life of a connection *)

Section Presence_facts.

Variable verifyToken : string -> option string.
Variable castObjectId : string -> bool.
Variable objectId : string -> ObjectId.

Lemma pushed_frame l uid uname b st st' :
  st' = pushOnlineUsers l (broadcastUserStatus uid uname b st) ->
  sockets st' = sockets st /\ clients st' = clients st
  /\ connectedClients st' = connectedClients st /\ users st' = users st
  /\ messages st' = messages st /\ now st' = now st.
Proof.
  intros ->. rewrite pushOnlineUsers_run, broadcastUserStatus_run. repeat split.
Qed.

Lemma registerConnection_socket ws uid user st k :
  sockets st !! ws = Some k ->
  readyState k = OPEN ->
  let stA := (registerConnection ws uid user st).1 in
  exists r, (r = OPEN \/ r = CLOSING)
    /\ sockets stA !! ws
       = Some (WebSocket.mk r (Some uid) (Some (User.username user)) (Some true)
                            (listening k))
    /\ clients stA = clients st
    /\ connectedClients stA = <[uid := ws]> (connectedClients st)
    /\ messages stA = messages st.
Proof.
  intros Hk Ho. unfold registerConnection, await, User_findByIdAndUpdate. cbn [fst].
  set (st1 := with_sockets (alter (setIdentity uid (User.username user)) ws) st).
  assert (H1 : sockets st1 !! ws
               = Some (WebSocket.mk OPEN (Some uid) (Some (User.username user))
                                    (Some true) (listening k))).
  { unfold st1. simpl. rewrite lookup_alter_eq, Hk. simpl.
    unfold setIdentity. rewrite Ho. reflexivity. }
  assert (H2 : clients st1 = clients st /\ connectedClients st1 = connectedClients st
               /\ messages st1 = messages st) by (repeat split).
  destruct H2 as (H2 & H3 & H4). clearbody st1.
  destruct (connectedClients st1 !! uid) as [old|]; simpl.
  - unfold ws_close. destruct (isOpen old st1); simpl.
    + destruct (decide (old = ws)) as [->|Hne].
      * exists CLOSING. rewrite lookup_alter_eq, H1, H2, H3, H4. repeat split. auto.
      * exists OPEN. rewrite lookup_alter_ne by exact Hne.
        rewrite H1, H2, H3, H4. repeat split. auto.
    + exists OPEN. rewrite H1, H2, H3, H4. repeat split. auto.
  - exists OPEN. rewrite H1, H2, H3, H4. repeat split. auto.
Qed.

(** The presence flag of the store follows the connection.  A handshake
    with a token that verifies for a stored account (its id casts to the
    ObjectId of the account) enters the socket in the registry under that
    account, sets the account online and attaches the listeners.  The
    ['close'] event of that socket then removes the entry, sets the account
    offline with the time of the event as its last-seen time, takes the
    socket out of the client set and sends it nothing more.  No other
    account and no message is touched by either. *)
Theorem presence_follows_connection st ws t d uid user :
  sockets st !! ws = None ->
  t <> EmptyString ->
  verifyToken t = Some d ->
  castObjectId d = true ->
  objectId d = uid ->
  users st !! uid = Some user ->
  let st1 := exec (dispatch verifyToken castObjectId objectId (Connect ws (Some t))) st in
  let st2 := exec (dispatch verifyToken castObjectId objectId (Closed ws)) st1 in
  (connectedClients st1 = <[uid := ws]> (connectedClients st)
   /\ users st1
      = <[uid := User.mk (User.username user) true (User.lastSeen user)]> (users st)
   /\ listener ws st1 = Some (uid, User.username user)
   /\ clients st1 = clients st ∪ {[ws]})
  /\ (connectedClients st2 = delete uid (connectedClients st)
      /\ users st2 = <[uid := User.mk (User.username user) false (now st)]> (users st)
      /\ isOpen ws st2 = false
      /\ clients st2 = clients st ∖ {[ws]}
      /\ received ws st2 = received ws st1)
  /\ messages st1 = messages st /\ messages st2 = messages st.
Proof.
  intros Hnew Ht Hv Hc Hd Hu st1 st2.
  set (st0 := with_clients (fun cs => cs ∪ {[ws]})
                (with_sockets <[ws := freshSocket]> st)).
  assert (E1 : st1 = exec (registerConnection ws uid user) st0).
  { unfold st1, exec.
    pose proof (handshake_accepted castObjectId objectId verifyToken st ws t d uid
                  user Hnew Ht Hv Hc Hd Hu) as H2.
    assert (H1 : (dispatch verifyToken castObjectId objectId (Connect ws (Some t)) st).1 = st0).
    { unfold dispatch. rewrite Hnew. unfold onConnection, truthy.
      rewrite (proj2 (String.eqb_neq t EmptyString)) by exact Ht. cbn [negb].
      change (default EmptyString (Some t)) with t. rewrite Hv.
      unfold await, User_findById. rewrite Hc. reflexivity. }
    destruct (dispatch verifyToken castObjectId objectId (Connect ws (Some t)) st) as [a b].
    simpl in H1, H2. subst a b. reflexivity. }
  assert (Hk0 : sockets st0 !! ws = Some freshSocket)
    by (unfold st0; simpl; apply lookup_insert_eq).
  destruct (registerConnection_socket ws uid user st0 freshSocket Hk0 eq_refl)
    as (r & Hr & HsA & HcA & HrA & HmA).
  destruct (registerConnection_first ws uid user st0) as (_ & HnA & HuA & _).
  set (stA := (registerConnection ws uid user st0).1) in *.
  rewrite registerConnection_exec in E1. fold stA in E1.
  set (uname := User.username user) in *.
  set (stS := sendToClient ws (connection_established uid uname) stA) in *.
  assert (HS : sockets stS = sockets stA /\ clients stS = clients stA
               /\ connectedClients stS = connectedClients stA
               /\ users stS = users stA /\ messages stS = messages stA
               /\ now stS = now stA)
    by (unfold stS; rewrite sendToClient_run; repeat split).
  destruct HS as (S1 & S2 & S3 & S4 & S5 & S6).
  remember (pushOnlineUsers
              (User_find_online (broadcastUserStatus uid uname true stS)).2
              (broadcastUserStatus uid uname true stS)) as stP eqn:EP.
  destruct (pushed_frame _ _ _ _ _ _ EP) as (P1 & P2 & P3 & P4 & P5 & P6).
  clear EP.
  assert (Hk1 : sockets st1 !! ws
                = Some (WebSocket.mk r (Some uid) (Some uname) (Some true) true)).
  { rewrite E1. cbn [sockets with_sockets].
    rewrite lookup_alter_eq, P1, S1, HsA. reflexivity. }
  assert (Hreg1 : connectedClients st1 = <[uid := ws]> (connectedClients st))
    by (rewrite E1; cbn [connectedClients with_sockets];
        rewrite P3, S3, HrA; reflexivity).
  assert (Hus1 : users st1 = <[uid := setOnline user]> (users st)).
  { rewrite E1. cbn [users with_sockets]. rewrite P4, S4, HuA.
    change (users st0) with (users st).
    apply map_eq. intros i. destruct (decide (uid = i)) as [<-|Hne].
    - rewrite lookup_alter_eq, lookup_insert_eq, Hu. reflexivity.
    - rewrite lookup_alter_ne, lookup_insert_ne by exact Hne. reflexivity. }
  assert (Hcl1 : clients st1 = clients st ∪ {[ws]})
    by (rewrite E1; cbn [clients with_sockets]; rewrite P2, S2, HcA; reflexivity).
  assert (Hm1 : messages st1 = messages st)
    by (rewrite E1; cbn [messages with_sockets]; rewrite P5, S5, HmA; reflexivity).
  assert (Hn1 : now st1 = now st)
    by (rewrite E1; cbn [now with_sockets]; rewrite P6, S6, HnA; reflexivity).
  assert (Hl1 : listener ws st1 = Some (uid, uname))
    by (unfold listener; rewrite Hk1; reflexivity).
  set (st1' := with_clients (fun cs => cs ∖ {[ws]})
                 (with_sockets (alter (setReadyState CLOSED) ws) st1)).
  assert (E2 : st2 = exec (onClose ws uid uname) st1').
  { unfold st2, exec, dispatch. rewrite Hk1, Hl1. simpl.
    destruct Hr as [-> | ->]; reflexivity. }
  rewrite onClose_exec in E2.
  remember (onClose ws uid uname st1').1 as stB eqn:EB.
  assert (HB : sockets stB = alter (setReadyState CLOSED) ws (sockets st1)
               /\ clients stB = clients st1 ∖ {[ws]}
               /\ connectedClients stB = delete uid (connectedClients st1)
               /\ users stB = alter (setOffline (now st1)) uid (users st1)
               /\ messages stB = messages st1
               /\ received ws stB = received ws st1).
  { rewrite EB. unfold onClose, await, User_findByIdAndUpdate. simpl.
    repeat split. unfold received. simpl. rewrite omap_app. simpl.
    apply app_nil_r. }
  destruct HB as (B1 & B2 & B3 & B4 & B5 & B6). clear EB.
  destruct (pushed_frame _ _ _ _ _ _ E2) as (Q1 & Q2 & Q3 & Q4 & Q5 & _).
  split; [auto|]. split; [|split; [exact Hm1|]].
  - split; [|split; [|split; [|split]]].
    + rewrite Q3, B3, Hreg1. apply delete_insert_eq.
    + rewrite Q4, B4, Hus1, Hn1.
      apply map_eq. intros i. destruct (decide (uid = i)) as [<-|Hne].
      * rewrite lookup_alter_eq, !lookup_insert_eq. reflexivity.
      * rewrite lookup_alter_ne, !lookup_insert_ne by exact Hne. reflexivity.
    + unfold isOpen. rewrite Q1, B1, lookup_alter_eq, Hk1. reflexivity.
    + rewrite Q2, B2, Hcl1. apply set_eq. intros x.
      rewrite !elem_of_difference, elem_of_union. tauto.
    + rewrite E2, received_presence.
      assert (Hlive : live ws stB = false).
      { unfold live. rewrite bool_decide_eq_false_2; [reflexivity|].
        rewrite B2. intros H. apply elem_of_difference in H as [_ H].
        apply H, elem_of_singleton. reflexivity. }
      rewrite Hlive. simpl. rewrite app_nil_r. exact B6.
  - rewrite Q5, B5. exact Hm1.
Qed.

End Presence_facts.

(** * Properties of the store and of the REST controllers *)

Section Rest_facts.

Variable verifyToken : string -> option string.
Variable castObjectId : string -> bool.
Variable objectId : string -> ObjectId.

(** ** The unread counter *)

Lemma unread_filter_markAsRead s r x t (l : list (nat * Message.t)) :
  length (filter (fun p : nat * Message.t =>
                    bool_decide (Message.receiver p.2 = x)
                    && negb (Message.isRead p.2) = true) l)
  = length (filter (fun p : nat * Message.t =>
                      bool_decide (Message.receiver p.2 = x)
                      && negb (Message.isRead p.2) = true)
              (prod_map id (fun m => if unreadFrom objectId s r m then setRead t m else m)
                 <$> l))
    + if decide (x = r)
      then length (filter (fun p : nat * Message.t =>
                             unreadFrom objectId s r p.2 = true) l)
      else 0.
Proof.
  induction l as [|[i m] l IH]; [destruct (decide (x = r)); reflexivity|].
  rewrite fmap_cons, !filter_cons. simpl.
  destruct (unreadFrom objectId s r m) eqn:Hq.
  - apply (unreadFrom_spec castObjectId) in Hq as (Hs & Hr & Hu). simpl.
    rewrite Hu, Hr. simpl. rewrite andb_false_r, andb_true_r.
    destruct (decide (x = r)) as [->|Hne].
    + rewrite bool_decide_eq_true_2 by reflexivity.
      rewrite decide_True by reflexivity. rewrite decide_False by discriminate.
      simpl. rewrite IH. lia.
    + rewrite bool_decide_eq_false_2 by congruence.
      rewrite !decide_False by discriminate. exact IH.
  - destruct (decide (bool_decide (Message.receiver m = x) && negb (Message.isRead m)
                      = true)) as [Hp|Hp].
    + simpl. rewrite IH. destruct (decide (x = r)); reflexivity.
    + rewrite IH. destruct (decide (x = r)); reflexivity.
Qed.

(** Marking a conversation read lowers the unread counter of the reader by
    exactly the [modifiedCount] it reports, and leaves the counter of every
    other user as it was.  [r] and [x] are the ObjectIds of the reader and of
    the user whose messages are counted; [s] is the id of the sender as the
    client wrote it. *)
Theorem unread_count_after_markAsRead s r x st st' n :
  Message_markAsRead castObjectId objectId s r st = (st', Resolved n) ->
  castObjectId x = true ->
  exists before after,
    (Message_getUnreadCount castObjectId x st).2 = Resolved before
    /\ (Message_getUnreadCount castObjectId x st').2 = Resolved after
    /\ before = after + if decide (x = r) then n else 0.
Proof.
  unfold Message_markAsRead, Message_getUnreadCount. intros H Hx. rewrite Hx.
  destruct (castObjectId s && castObjectId r); [|discriminate H].
  injection H as <- <-. simpl. eexists _, _. split; [reflexivity|].
  split; [reflexivity|].
  rewrite map_to_list_fmap. apply unread_filter_markAsRead.
Qed.

(** A stored message raises the unread counter of its receiver, the user
    whose ObjectId the [receiver] of the request casts to, by one and that of
    nobody else. *)
Theorem unread_count_after_create me r c mt x st st' id m :
  Message_create castObjectId objectId me r c mt st = (st', Resolved (id, m)) ->
  castObjectId x = true ->
  exists before after,
    (Message_getUnreadCount castObjectId x st).2 = Resolved before
    /\ (Message_getUnreadCount castObjectId x st').2 = Resolved after
    /\ after = before + if decide (x = objectId r) then 1 else 0.
Proof.
  unfold Message_create, Message_getUnreadCount. intros H Hx. rewrite Hx.
  destruct (schemaAccepts _ _ _ _ _); [|discriminate H].
  injection H as <- <- <-. simpl. eexists _, _. split; [reflexivity|].
  split; [reflexivity|].
  rewrite (Permutation_length
             (filter_Permutation _ _ _
                (map_to_list_insert _ _ _ (fresh_message_id st)))).
  rewrite filter_cons. simpl. rewrite andb_true_r.
  destruct (decide (x = objectId r)) as [->|Hne].
  - rewrite bool_decide_eq_true_2 by reflexivity.
    rewrite decide_True by reflexivity. simpl. lia.
  - rewrite bool_decide_eq_false_2 by congruence.
    rewrite decide_False by discriminate. lia.
Qed.

(** ** What [trim] removes *)

Lemma append_cons (c : ascii) (a b : string) : String c a ++ b = String c (a ++ b).
Proof. reflexivity. Qed.

Lemma append_nil_l (b : string) : EmptyString ++ b = b.
Proof. reflexivity. Qed.

Lemma append_nil_r (s : string) : s ++ EmptyString = s.
Proof.
  induction s as [|c r IH]; [reflexivity|]. rewrite append_cons, IH. reflexivity.
Qed.

Lemma append_assoc (a b c : string) : (a ++ b) ++ c = a ++ b ++ c.
Proof.
  induction a as [|x a IH]; [reflexivity|]. rewrite !append_cons, IH. reflexivity.
Qed.

Lemma rev_app_spec (s acc : string) : String.rev_app s acc = String.rev s ++ acc.
Proof.
  revert acc. induction s as [|c r IH]; intros acc; [reflexivity|].
  unfold String.rev. simpl. rewrite (IH (String c acc)), (IH (String c EmptyString)).
  rewrite append_assoc. reflexivity.
Qed.

Lemma rev_cons (c : ascii) (r : string) :
  String.rev (String c r) = String.rev r ++ String c EmptyString.
Proof. unfold String.rev at 1. simpl. apply rev_app_spec. Qed.

Lemma rev_append (a b : string) : String.rev (a ++ b) = String.rev b ++ String.rev a.
Proof.
  induction a as [|x a IH].
  - rewrite append_nil_l. symmetry. apply append_nil_r.
  - rewrite append_cons, !rev_cons, IH, append_assoc. reflexivity.
Qed.

Lemma rev_involutive (s : string) : String.rev (String.rev s) = s.
Proof.
  induction s as [|c r IH]; [reflexivity|].
  rewrite rev_cons, rev_append, IH. reflexivity.
Qed.

Lemma whites_append (a b : string) : whites (a ++ b) = whites a && whites b.
Proof.
  induction a as [|x a IH]; [reflexivity|].
  rewrite append_cons. simpl. rewrite IH, andb_assoc. reflexivity.
Qed.

Lemma whites_rev (s : string) : whites (String.rev s) = whites s.
Proof.
  induction s as [|c r IH]; [reflexivity|].
  rewrite rev_cons, whites_append, IH. simpl. rewrite andb_true_r. apply andb_comm.
Qed.

Lemma endsWhite_snoc (s : string) (c : ascii) :
  endsWhite (s ++ String c EmptyString) = is_white c.
Proof.
  induction s as [|x s IH]; [reflexivity|]. rewrite append_cons. simpl.
  destruct (s ++ String c EmptyString) eqn:E; [destruct s; discriminate|exact IH].
Qed.

Lemma endsWhite_rev (s : string) : endsWhite (String.rev s) = startsWhite s.
Proof. destruct s as [|c r]; [reflexivity|]. rewrite rev_cons. apply endsWhite_snoc. Qed.

Lemma trimStart_spec (s : string) :
  exists w, s = w ++ trimStart s /\ whites w = true /\ startsWhite (trimStart s) = false.
Proof.
  induction s as [|c r (w & E & Hw & Hs)]; [exists EmptyString; auto|].
  simpl. destruct (is_white c) eqn:Hc.
  - exists (String c w). rewrite append_cons, <- E. simpl. rewrite Hc, Hw. auto.
  - exists EmptyString. simpl. auto.
Qed.

(** [trim] removes white space at both ends and nothing else. *)
Lemma trim_spec (s : string) :
  exists a b, s = a ++ trim s ++ b
    /\ whites a = true /\ whites b = true
    /\ startsWhite (trim s) = false /\ endsWhite (trim s) = false.
Proof.
  unfold trim.
  destruct (trimStart_spec s) as (a & Ea & Ha & Hs).
  destruct (trimStart_spec (String.rev (trimStart s))) as (w & Ew & Hw & Hs2).
  set (t1 := trimStart s) in *.
  set (t2 := trimStart (String.rev t1)) in *.
  assert (E1 : t1 = String.rev t2 ++ String.rev w).
  { rewrite <- rev_append, <- Ew. symmetry. apply rev_involutive. }
  exists a, (String.rev w). split; [rewrite <- E1; exact Ea|].
  split; [exact Ha|]. split; [rewrite whites_rev; exact Hw|].
  split.
  - destruct (String.rev t2) as [|c r] eqn:E; [reflexivity|].
    rewrite <- Hs, E1, append_cons. reflexivity.
  - rewrite endsWhite_rev. exact Hs2.
Qed.

(** ** Sending through the REST API *)

Lemma schemaAccepts_validationErrors me r c mt :
  castObjectId me = true -> castObjectId r = true ->
  (schemaAccepts castObjectId me r c mt = true <-> validationErrors c mt = []).
Proof.
  intros Hme Hr. unfold schemaAccepts, validationErrors. rewrite Hme, Hr.
  destruct (String.eqb (trim c) EmptyString);
    destruct (String.length (trim c) <=? 5000)%nat;
    destruct (bool_decide (mt ∈ messageTypes)); simpl; split; congruence.
Qed.

(** [POST /api/messages] answers 201 exactly when both fields are present,
    the [receiverId] casts to the ObjectId of a stored account, is not the
    string of the sender's own id, and the schema accepts the document; it
    then stores that one message, to the ObjectId the [receiverId] casts to,
    unread and with status [sent]; its content is the [content] of the
    request without the white space at its two ends.  In every other
    case it answers 400 or 404 and changes nothing.  It never writes to a
    socket: the log, the sockets and the registry are as before, also when
    the receiver is connected. *)
Theorem sendMessage_outcome me (reqBody : gmap string string) st :
  castObjectId me = true ->
  let res := sendMessage castObjectId objectId me reqBody st in
  let mt := default "text" (reqBody !! "messageType") in
  let accepted r c :=
    reqBody !! "receiverId" = Some r /\ reqBody !! "content" = Some c
    /\ r <> EmptyString /\ c <> EmptyString
    /\ castObjectId r = true /\ is_Some (users st !! objectId r) /\ r <> me
    /\ validationErrors c mt = [] in
  (forall r c, accepted r c ->
     let id := fresh (dom (messages st)) in
     let m := Message.mk me (objectId r) (trim c) mt false None Message.sent
                         (now st) in
     messages st !! id = None
     /\ res = (with_messages <[id := m]> st,
               mkResponse 201 true
                 (MessageSent
                    (mkPopulated id m (User.username <$> users st !! me)
                                 (User.username <$> users st !! objectId r))))
     /\ exists a b, c = a ++ Message.content m ++ b
                    /\ whites a = true /\ whites b = true
                    /\ startsWhite (Message.content m) = false
                    /\ endsWhite (Message.content m) = false)
  /\ ((forall r c, ~ accepted r c) ->
      res.1 = st /\ (statusCode res.2 = 400 \/ statusCode res.2 = 404))
  /\ log res.1 = log st /\ sockets res.1 = sockets st
  /\ connectedClients res.1 = connectedClients st /\ users res.1 = users st.
Proof.
  intros Hme res mt accepted. subst res. unfold sendMessage. fold mt.
  split; [|split].
  - intros r c Hacc. unfold accepted in Hacc.
    destruct Hacc as (Hr & Hc & Hrn & Hcn & Hcast & [u Hu] & Hne & Hv).
    split; [apply fresh_message_id|]. split; [|apply trim_spec].
    rewrite Hr, Hc. simpl.
    rewrite (proj2 (String.eqb_neq r EmptyString)) by exact Hrn.
    rewrite (proj2 (String.eqb_neq c EmptyString)) by exact Hcn. simpl.
    unfold User_findById. rewrite Hcast. simpl. rewrite Hu.
    rewrite (proj2 (String.eqb_neq r me)) by exact Hne.
    rewrite Message_create_accepted
      by (apply schemaAccepts_validationErrors; assumption).
    unfold populate. simpl. rewrite Hu. reflexivity.
  - intros Hno.
    destruct (reqBody !! "receiverId") as [r|] eqn:Hr; simpl; [|auto].
    destruct (String.eqb r EmptyString) eqn:Hrn; simpl; [auto|].
    destruct (reqBody !! "content") as [c|] eqn:Hc; simpl; [|auto].
    destruct (String.eqb c EmptyString) eqn:Hcn; simpl; [auto|].
    apply String.eqb_neq in Hrn, Hcn.
    unfold User_findById. destruct (castObjectId r) eqn:Hcast; simpl; [|auto].
    destruct (users st !! objectId r) as [u|] eqn:Hu; [|auto].
    destruct (String.eqb r me) eqn:Hne; [auto|]. apply String.eqb_neq in Hne.
    unfold Message_create.
    destruct (schemaAccepts castObjectId me r c mt) eqn:Hs; [|simpl; auto].
    exfalso. apply (Hno r c). unfold accepted.
    repeat split; try assumption; try reflexivity; try (eexists; eassumption).
    apply (schemaAccepts_validationErrors me r); assumption.
  - destruct (negb (truthy (reqBody !! "receiverId"))
              || negb (truthy (reqBody !! "content"))); [repeat split|].
    destruct (User_findById castObjectId objectId _ st).2 as [[u|]|];
      [|repeat split; reflexivity..].
    destruct (String.eqb _ me); [repeat split|].
    unfold Message_create. destruct (schemaAccepts _ _ _ _ _); repeat split.
Qed.

(** ** Marking read through the REST API *)

Lemma markAsRead_effect s r t (ms : gmap nat Message.t) id m :
  ms !! id = Some m ->
  let ms' := (fun m => if unreadFrom objectId s r m then setRead t m else m) <$> ms in
  (Message.sender m = objectId s -> Message.receiver m = r ->
   Message.isRead m = false ->
   exists m', ms' !! id = Some m'
              /\ Message.isRead m' = true /\ Message.status m' = Message.read
              /\ Message.readAt m' = Some t /\ sameLetter m m')
  /\ (~ (Message.sender m = objectId s /\ Message.receiver m = r
         /\ Message.isRead m = false) ->
      ms' !! id = Some m).
Proof.
  intros Hm ms'. unfold ms'. rewrite lookup_fmap, Hm. simpl. split.
  - intros Hs Hr Hu.
    assert (E : unreadFrom objectId s r m = true).
    { unfold unreadFrom. rewrite Hu. simpl. rewrite andb_true_r.
      apply andb_true_intro.
      split; apply bool_decide_eq_true_2; assumption. }
    rewrite E. eexists. split; [reflexivity|]. repeat split.
  - intros Hn. destruct (unreadFrom objectId s r m) eqn:E; [|reflexivity].
    exfalso. apply Hn. unfold unreadFrom in E.
    apply andb_prop in E as [E Hu]. apply andb_prop in E as [Hs Hr].
    apply bool_decide_eq_true in Hs, Hr. apply negb_true_iff in Hu. auto.
Qed.

(** [PUT /api/messages/read/:userId] reports as [modifiedCount] the number of
    unread messages the other user (the one whose ObjectId the id of the path
    casts to) sent to the caller and sets exactly those read; asked again it
    reports 0.  The caller's count at
    [GET /api/messages/unread/count] drops by the number reported.  Unlike
    [mark_read] on the socket it notifies nobody: the log is as before.  An
    id that does not cast is answered 400 and nothing changes. *)
Theorem markMessagesAsRead_outcome me other st :
  castObjectId me = true ->
  let res := markMessagesAsRead castObjectId objectId me other st in
  (castObjectId other = true ->
     res = (with_messages
              (fmap (fun m => if unreadFrom objectId other me m
                              then setRead (now st) m else m))
              st,
            mkResponse 200 true (Marked (size (unread (objectId other) me st))))
     /\ (forall id m, messages st !! id = Some m ->
           (Message.sender m = objectId other -> Message.receiver m = me ->
            Message.isRead m = false ->
            exists m', messages res.1 !! id = Some m'
                       /\ Message.isRead m' = true
                       /\ Message.status m' = Message.read
                       /\ Message.readAt m' = Some (now st)
                       /\ sameLetter m m')
           /\ (~ (Message.sender m = objectId other /\ Message.receiver m = me
                  /\ Message.isRead m = false) ->
               messages res.1 !! id = Some m))
     /\ (markMessagesAsRead castObjectId objectId me other res.1).2
        = mkResponse 200 true (Marked 0)
     /\ exists before after,
          (getUnreadCount castObjectId me st).2 = mkResponse 200 true (Unread before)
          /\ (getUnreadCount castObjectId me res.1).2
             = mkResponse 200 true (Unread after)
          /\ before = after + size (unread (objectId other) me st))
  /\ (castObjectId other = false ->
      res = (st, mkResponse 400 false (Failure "Invalid ID format")))
  /\ log res.1 = log st.
Proof.
  intros Hme res. subst res.
  unfold markMessagesAsRead, getUnreadCount, Message_markAsRead,
    Message_getUnreadCount.
  rewrite Hme, andb_true_r.
  destruct (castObjectId other); simpl.
  - split; [|split; [discriminate|reflexivity]]. intros _.
    rewrite (modifiedCount_unread castObjectId).
    split; [reflexivity|].
    split; [intros id m Hm; apply (markAsRead_effect other me (now st) _ id m Hm)|].
    split.
    + rewrite modifiedCount_again. reflexivity.
    + eexists _, _. split; [reflexivity|]. split; [reflexivity|].
      rewrite map_to_list_fmap, <- (modifiedCount_unread castObjectId).
      rewrite (unread_filter_markAsRead other me me (now st)) at 1.
      rewrite decide_True by reflexivity. reflexivity.
  - split; [discriminate|]. split; reflexivity.
Qed.

(** ** Reading a conversation through the REST API *)

Lemma StronglySorted_sublist {A} (R : relation A) (k l : list A) :
  k `sublist_of` l -> StronglySorted R l -> StronglySorted R k.
Proof.
  induction 1 as [|x k l Hs IH|x k l Hs IH]; intros Hl.
  - constructor.
  - apply StronglySorted_inv in Hl as [Hl Hx]. constructor; [auto|].
    rewrite Forall_forall in Hx |- *. intros y Hy. apply Hx.
    eapply elem_of_sublist; eassumption.
  - apply StronglySorted_inv in Hl as [Hl _]. auto.
Qed.

Lemma StronglySorted_reverse {A} (R : relation A) (l : list A) :
  StronglySorted R l -> StronglySorted (flip R) (reverse l).
Proof.
  induction 1 as [|x l Hl IH Hx]; [constructor|].
  rewrite reverse_cons. apply StronglySorted_app_2.
  - intros a b Ha Hb. apply list_elem_of_singleton in Hb as ->.
    rewrite elem_of_reverse in Ha. rewrite Forall_forall in Hx. apply Hx, Ha.
  - exact IH.
  - repeat constructor.
Qed.

Lemma newerFirst_total : Total newerFirst.
Proof. intros a b. unfold newerFirst. lia. Qed.

Lemma newerFirst_trans : Transitive newerFirst.
Proof. intros a b c. unfold newerFirst. lia. Qed.

Lemma page_sublist (n k : nat) (l : list (nat * Message.t)) :
  take n (drop k (merge_sort newerFirst l)) `sublist_of` merge_sort newerFirst l.
Proof. etrans; [apply sublist_take|apply sublist_drop]. Qed.

Lemma page_elem_of me other n k st q :
  q ∈ take n (drop k (merge_sort newerFirst
                        (filter (fun p : nat * Message.t => between objectId me other p.2 = true)
                                (map_to_list (messages st))))) ->
  messages st !! q.1 = Some q.2 /\ between objectId me other q.2 = true.
Proof.
  intros Hq. eapply elem_of_sublist in Hq; [|apply page_sublist].
  rewrite merge_sort_Permutation in Hq.
  apply list_elem_of_filter in Hq as [Hb Hq]. split; [|exact Hb].
  destruct q as [id m]. apply elem_of_map_to_list in Hq. exact Hq.
Qed.

Lemma between_spec me other m :
  between objectId me other m = true
  <-> (Message.sender m = me /\ Message.receiver m = objectId other)
      \/ (Message.sender m = objectId other /\ Message.receiver m = me).
Proof.
  unfold between.
  rewrite orb_true_iff, !andb_true_iff, !bool_decide_eq_true. reflexivity.
Qed.

(** [GET /api/messages/:userId] reads only.  It answers 200 exactly when the
    id in the path casts to the ObjectId of a stored account, 404 when it
    casts and no account has that ObjectId, 400 when it does not cast.  The
    page it returns holds at most [limit] messages, each a stored message
    from one of the two users to the other and none twice, oldest first;
    when the whole conversation fits into the first page, every message of
    it is on that page. *)
Theorem getConversation_page me other page limit st :
  castObjectId me = true ->
  let res := getConversation castObjectId objectId me other page limit st in
  let shown := conversationOf res.2 in
  let n := Pos.to_nat (default 50%positive limit) in
  res.1 = st
  /\ (statusCode res.2 = 200
      <-> castObjectId other = true /\ is_Some (users st !! objectId other))
  /\ (castObjectId other = true -> users st !! objectId other = None ->
      res.2 = mkResponse 404 false (Failure "User not found"))
  /\ (castObjectId other = false ->
      res.2 = mkResponse 400 false (Failure "Invalid ID format"))
  /\ length shown <= n
  /\ StronglySorted
       (fun a b => Message.createdAt (doc a) <= Message.createdAt (doc b)) shown
  /\ NoDup (doc_id <$> shown)
  /\ (forall p, p ∈ shown ->
        messages st !! doc_id p = Some (doc p)
        /\ ((Message.sender (doc p) = me
             /\ Message.receiver (doc p) = objectId other)
            \/ (Message.sender (doc p) = objectId other
                /\ Message.receiver (doc p) = me))
        /\ senderName p = User.username <$> users st !! Message.sender (doc p)
        /\ receiverName p = User.username <$> users st !! Message.receiver (doc p))
  /\ (statusCode res.2 = 200 -> default 1%positive page = 1%positive ->
      Message_countConversation objectId me other st <= n ->
      forall id m, messages st !! id = Some m ->
        (Message.sender m = me /\ Message.receiver m = objectId other)
        \/ (Message.sender m = objectId other /\ Message.receiver m = me) ->
        exists p, p ∈ shown /\ doc_id p = id /\ doc p = m).
Proof.
  intros Hme res shown n. subst shown res. unfold getConversation.
  unfold User_findById, Message_getConversation. rewrite Hme. fold n.
  destruct (castObjectId other) eqn:Hcast; simpl.
  2:{ unfold conversationOf. simpl.
      split; [reflexivity|]. split; [split; [|intros [? _]]; discriminate|].
      split; [discriminate|]. split; [reflexivity|]. split; [lia|].
      split; [constructor|]. split; [constructor|].
      split; [|discriminate]. intros p Hp. apply elem_of_nil in Hp. destruct Hp. }
  destruct (users st !! objectId other) as [u|] eqn:Hu.
  2:{ unfold conversationOf. simpl.
      split; [reflexivity|]. split; [split; [|intros [_ [? ?]]]; discriminate|].
      split; [reflexivity|]. split; [discriminate|]. split; [lia|].
      split; [constructor|]. split; [constructor|].
      split; [|discriminate]. intros p Hp. apply elem_of_nil in Hp. destruct Hp. }
  unfold conversationOf. simpl.
  set (L := filter (fun p : nat * Message.t => between objectId me other p.2 = true)
                   (map_to_list (messages st))).
  set (k := (Pos.to_nat (default 1%positive page) - 1) * n).
  split; [reflexivity|]. split; [split; [eauto|reflexivity]|].
  split; [discriminate|]. split; [discriminate|].
  split; [|split; [|split; [|split]]].
  - rewrite length_reverse, length_fmap, length_take. lia.
  - apply (StronglySorted_reverse
             (fun a b => Message.createdAt (doc b) <= Message.createdAt (doc a))).
    apply (StronglySorted_fmap _ newerFirst); [intros x y H; exact H|].
    eapply StronglySorted_sublist; [apply page_sublist|].
    apply (StronglySorted_merge_sort newerFirst
             (Transitive0 := newerFirst_trans) (Total0 := newerFirst_total)).
  - rewrite fmap_reverse, <- list_fmap_compose, reverse_Permutation.
    change (doc_id ∘ populate st) with (@fst nat Message.t).
    eapply sublist_NoDup; [|apply fmap_sublist, page_sublist].
    rewrite merge_sort_Permutation. unfold L.
    eapply sublist_NoDup; [apply (NoDup_fst_map_to_list (messages st))|].
    apply fmap_sublist, sublist_filter.
  - intros p Hp. apply elem_of_reverse, list_elem_of_fmap in Hp as (q & -> & Hq).
    apply page_elem_of in Hq as [Hq Hb]. simpl.
    split; [exact Hq|]. split; [apply between_spec, Hb|]. split; reflexivity.
  - intros _ Hpage Hfit id m Hm Hb.
    exists (populate st (id, m)). split; [|split; reflexivity].
    apply elem_of_reverse, list_elem_of_fmap. exists (id, m). split; [reflexivity|].
    subst k. rewrite Hpage. simpl. rewrite drop_0. rewrite take_ge.
    + rewrite merge_sort_Permutation. apply list_elem_of_filter.
      split; [apply between_spec, Hb|]. apply elem_of_map_to_list. exact Hm.
    + rewrite merge_sort_Permutation. exact Hfit.
Qed.

(** ** The guard of the REST routes *)

Lemma splitSpace_spaceFree tok : spaceFree tok = true -> splitSpace tok = [tok].
Proof.
  induction tok as [|c r IH]; [reflexivity|]. simpl. intros H.
  apply andb_prop in H as [Hc Hr]. apply negb_true_iff in Hc. rewrite Hc.
  rewrite (IH Hr). reflexivity.
Qed.

Lemma splitSpace_Bearer tok :
  spaceFree tok = true -> splitSpace ("Bearer " ++ tok) !! 1 = Some tok.
Proof.
  intros Hs.
  change (splitSpace ("Bearer " ++ tok))
    with (match splitSpace (" " ++ tok) with
          | w :: ws => ("Bearer" ++ w) :: ws
          | [] => ["Bearer"]
          end).
  change (splitSpace (" " ++ tok)) with (EmptyString :: splitSpace tok).
  rewrite (splitSpace_spaceFree _ Hs). reflexivity.
Qed.

(** [protect] lets a request through only with a header that starts with
    [Bearer] and whose second space-separated word is a non-empty token that
    verifies and decodes to an id that casts to the ObjectId of a stored
    account, which is the account it attaches.  Every other request is
    answered 401. *)
Theorem protect_outcome authorization st :
  match protect verifyToken castObjectId objectId authorization st with
  | Denied r => statusCode r = 401 /\ success r = false
  | Next uid user =>
      users st !! uid = Some user
      /\ exists h tok d,
           authorization = Some h /\ String.prefix "Bearer" h = true
           /\ splitSpace h !! 1 = Some tok /\ tok <> EmptyString
           /\ verifyToken tok = Some d /\ castObjectId d = true
           /\ objectId d = uid
  end.
Proof.
  unfold protect.
  destruct authorization as [h|]; [|split; reflexivity].
  destruct (String.prefix "Bearer" h) eqn:Hp; [|split; reflexivity].
  destruct (splitSpace h !! 1) as [tok|] eqn:Ht; [|split; reflexivity].
  simpl. destruct (String.eqb tok EmptyString) eqn:He; [split; reflexivity|].
  simpl. destruct (verifyToken tok) as [d|] eqn:Hv; [|split; reflexivity].
  unfold User_findById.
  destruct (castObjectId d) eqn:Hc; [|split; reflexivity]. simpl.
  destruct (users st !! objectId d) as [u|] eqn:Hu; [|split; reflexivity].
  split; [exact Hu|].
  exists h, tok, d. apply String.eqb_neq in He. repeat split; auto.
Qed.

(** The REST guard and the WebSocket handshake agree on a token: where
    [protect] passes a request carrying [Bearer <token>], the handshake with
    the same token registers the connection under the same account, and where
    [protect] answers 401 the handshake rejects the socket. *)
Theorem protect_agrees_with_handshake tok ws st :
  spaceFree tok = true ->
  match protect verifyToken castObjectId objectId (Some ("Bearer " ++ tok)) st with
  | Next uid user =>
      exec (onConnection verifyToken castObjectId objectId ws (Some tok)) st
      = exec (registerConnection ws uid user) st
  | Denied _ =>
      exists msg code,
        exec (onConnection verifyToken castObjectId objectId ws (Some tok)) st
        = exec (reject ws msg code) st
        /\ code ∈ [AUTH_REQUIRED; INVALID_TOKEN; USER_NOT_FOUND; SERVER_ERROR]
  end.
Proof.
  intros Hs. unfold protect, onConnection.
  change (String.prefix "Bearer" ("Bearer " ++ tok)) with true. cbv iota.
  rewrite (splitSpace_Bearer _ Hs).
  simpl. destruct (String.eqb tok EmptyString); simpl.
  { eexists _, _. split; [reflexivity|]. set_solver. }
  destruct (verifyToken tok) as [uid|].
  2:{ eexists _, _. split; [reflexivity|]. set_solver. }
  unfold await, User_findById, exec.
  destruct (castObjectId uid); simpl.
  2:{ eexists _, _. split; [reflexivity|]. set_solver. }
  destruct (users st !! objectId uid) as [u|]; [reflexivity|].
  eexists _, _. split; [reflexivity|]. set_solver.
Qed.

(** For a receiver id that casts to an ObjectId no stored account has, the
    REST controller answers 404 and stores nothing, while the socket router
    stores the same message and confirms it. *)
Theorem rest_checks_the_receiver_the_router_does_not
    st ws me myname (data : gmap string string) r c :
  data !! "receiverId" = Some r ->
  data !! "content" = Some c ->
  passesValidation castObjectId me data = true ->
  users st !! objectId r = None ->
  isOpen ws st = true ->
  online r st = false ->
  sendMessage castObjectId objectId me data st
  = (st, mkResponse 404 false (Failure "Receiver not found"))
  /\ exec (onMessage castObjectId objectId ws me myname (chat_message (Some data))) st
     = emit (Send ws (message_sent (fresh (dom (messages st))) r c (now st) Message.sent))
         (with_messages
            <[fresh (dom (messages st))
              := Message.mk me (objectId r) (trim c)
                            (default "text" (data !! "messageType"))
                            false None Message.sent (now st)]> st).
Proof.
  intros Hr Hc Hv Hu Ho Hoff.
  split; [|apply (chat_offline_run castObjectId objectId); assumption].
  destruct (passesValidation_fields castObjectId _ _ _ _ Hr Hc Hv)
    as (Tr & Tc & Hne & Hs).
  unfold sendMessage. rewrite Hr, Hc, Tr, Tc. simpl.
  unfold schemaAccepts in Hs. apply andb_prop in Hs as [Hs _].
  apply andb_prop in Hs as [Hs _]. apply andb_prop in Hs as [Hs _].
  apply andb_prop in Hs as [_ Hcast].
  unfold User_findById. rewrite Hcast. simpl. rewrite Hu. reflexivity.
Qed.

(** The self-send guards compare strings.  A [receiverId] that is another
    spelling of the sender's own id (it casts to the sender's ObjectId but
    is not the string [ws.userId]) passes the guard of the router and the
    guard of the REST controller: the router stores a message whose sender
    and receiver are the same user and sends no [error], and
    [POST /api/messages] stores the same message and answers 201. *)
Theorem self_send_guard_compares_spellings
    st ws me myname (data : gmap string string) r c :
  data !! "receiverId" = Some r ->
  data !! "content" = Some c ->
  passesValidation castObjectId me data = true ->
  objectId r = me ->
  let m := Message.mk me me (trim c) (default "text" (data !! "messageType"))
                      false None Message.sent (now st) in
  let id := fresh (dom (messages st)) in
  let st1 := (onMessage castObjectId objectId ws me myname (chat_message (Some data))
                st).1 in
  r <> me
  /\ messages st !! id = None
  /\ messages st1 !! id = Some m
  /\ log st1 = log st
  /\ (is_Some (users st !! me) ->
      sendMessage castObjectId objectId me data st
      = (with_messages <[id := m]> st,
         mkResponse 201 true
           (MessageSent (mkPopulated id m (User.username <$> users st !! me)
                                     (User.username <$> users st !! me))))).
Proof.
  intros Hr Hc Hv Hme m id st1.
  destruct (passesValidation_fields castObjectId _ _ _ _ Hr Hc Hv)
    as (Tr & Tc & Hne & Hs).
  assert (Hrm : r <> me) by congruence.
  split; [exact Hrm|]. split; [apply fresh_message_id|].
  assert (E1 : st1 = with_messages <[id := m]> st).
  { unfold st1, chat_message, onMessage, handleMessage; simpl.
    unfold handleChatMessage. rewrite Hr, Hc, Tr, Tc. simpl.
    rewrite bool_decide_eq_false_2 by exact Hne.
    unfold await. rewrite (Message_create_accepted castObjectId objectId) by exact Hs.
    rewrite Hme. reflexivity. }
  split; [rewrite E1; apply lookup_insert_eq|].
  split; [rewrite E1; reflexivity|].
  intros [u Hu]. unfold sendMessage. rewrite Hr, Hc, Tr, Tc. simpl.
  assert (Hcast : castObjectId r = true).
  { unfold schemaAccepts in Hs. apply andb_prop in Hs as [Hs _].
    apply andb_prop in Hs as [Hs _]. apply andb_prop in Hs as [Hs _].
    apply andb_prop in Hs as [_ Hs]. exact Hs. }
  unfold User_findById. rewrite Hcast. simpl. rewrite Hme, Hu.
  rewrite (proj2 (String.eqb_neq r me)) by exact Hrm.
  rewrite (Message_create_accepted castObjectId objectId) by exact Hs.
  rewrite Hme. unfold populate. simpl. rewrite Hu. reflexivity.
Qed.

End Rest_facts.

(** ** The further theorems at work on the deployment *)


(** The message as Bob's [mark_read] leaves it satisfies the validators and
    is read consistently. *)
Lemma schedule_keeps_messages_well_formed_witness :
  wellFormed Scenes.letterRead /\ readConsistent Scenes.letterRead.
Proof.
  apply (schedule_keeps_messages_well_formed Demo.verifyToken Demo.castObjectId
           Demo.objectId Scenes.bobReads Demo.mailWaiting.1) with (id := 0).
  - assert (E : messages Demo.mailWaiting.1 = {[0 := Scenes.letter]})
      by (vm_compute; reflexivity).
    rewrite E. intros id m Hm. apply lookup_singleton_Some in Hm as [_ <-].
    split; [|split; [split; [discriminate|intros [x Hx]; discriminate Hx]
                    |discriminate]].
    split; [discriminate|]. split.
    + apply Nat.leb_le. vm_compute. reflexivity.
    + apply (bool_decide_unpack _). vm_compute. exact I.
  - vm_compute. reflexivity.
Defined.


(** Alice starts typing to Bob, who is online on socket 2. *)
Lemma typing_is_relayed_only_witness :
  exec (onMessage Demo.castObjectId Demo.objectId 1 Demo.alice "alice"
          (typing true (Some (Scenes.typingTo Demo.bob)))) Demo.bothOnline.1
  = match connectedClients Demo.bothOnline.1 !! Demo.bob with
    | Some rc =>
        if isOpen rc Demo.bothOnline.1
        then emit (Send rc (typing_indicator Demo.alice "alice" true)) Demo.bothOnline.1
        else Demo.bothOnline.1
    | None => Demo.bothOnline.1
    end.
Proof.
  apply (typing_is_relayed_only Demo.castObjectId Demo.objectId Demo.bothOnline.1 1
           Demo.alice "alice" true (Scenes.typingTo Demo.bob) Demo.bob).
  - vm_compute. reflexivity.
  - discriminate.
Defined.


(** Alice's socket when it answers the probe. *)
Lemma answering_client_stays_open_witness :
  let st1 := heartbeat Demo.aliceOnline.1 in
  let st2 := (dispatch Demo.verifyToken Demo.castObjectId Demo.objectId (Pong 1)
                st1).1 in
  isAlive <$> sockets st1 !! 1 = Some (Some false)
  /\ isAlive <$> sockets st2 !! 1 = Some (Some true)
  /\ isOpen 1 (heartbeat st2) = true.
Proof.
  apply (answering_client_stays_open Demo.verifyToken Demo.castObjectId Demo.objectId
           Demo.aliceOnline.1 1 Scenes.aliceSocket Demo.alice "alice");
    try (vm_compute; reflexivity).
  discriminate.
Defined.

(** Bob's counter when he reads the one message waiting for him, writing
    Alice's id in upper case. *)
Lemma unread_count_after_markAsRead_witness :
  exists before after,
    (Message_getUnreadCount Demo.castObjectId Demo.bob Demo.mailWaiting.1).2
    = Resolved before
    /\ (Message_getUnreadCount Demo.castObjectId Demo.bob
          (Message_markAsRead Demo.castObjectId Demo.objectId Demo.ALICE Demo.bob
             Demo.mailWaiting.1).1).2
       = Resolved after
    /\ before = after + if decide (Demo.bob = Demo.bob) then 1 else 0.
Proof.
  apply (unread_count_after_markAsRead Demo.castObjectId Demo.objectId Demo.ALICE
           Demo.bob Demo.bob Demo.mailWaiting.1); vm_compute; reflexivity.
Defined.

(** Bob's counter when a message of Alice to him is stored, his id written
    in upper case. *)
Lemma unread_count_after_create_witness :
  exists before after,
    (Message_getUnreadCount Demo.castObjectId Demo.bob Demo.aliceOnline.1).2
    = Resolved before
    /\ (Message_getUnreadCount Demo.castObjectId Demo.bob
          (Message_create Demo.castObjectId Demo.objectId Demo.alice Demo.BOB "hi"
             "text" Demo.aliceOnline.1).1).2
       = Resolved after
    /\ after = before + if decide (Demo.bob = Demo.objectId Demo.BOB) then 1 else 0.
Proof.
  apply (unread_count_after_create Demo.castObjectId Demo.objectId Demo.alice Demo.BOB
           "hi" "text" Demo.bob Demo.aliceOnline.1 _ 0 Scenes.letter);
    vm_compute; reflexivity.
Defined.

(** Alice posts her message to Bob through the REST API, his id written in
    upper case. *)
Lemma sendMessage_outcome_witness :
  let st := Demo.boot.1 in
  let id := fresh (dom (messages st)) in
  let m := Message.mk Demo.alice (Demo.objectId Demo.BOB) (trim "hi") "text" false None
                      Message.sent (now st) in
  messages st !! id = None
  /\ sendMessage Demo.castObjectId Demo.objectId Demo.alice (Demo.chat Demo.BOB "hi") st
     = (with_messages <[id := m]> st,
        mkResponse 201 true
          (MessageSent
             (mkPopulated id m (User.username <$> users st !! Demo.alice)
                          (User.username <$> users st !! Demo.objectId Demo.BOB))))
  /\ exists a b, "hi" = a ++ Message.content m ++ b
                 /\ whites a = true /\ whites b = true
                 /\ startsWhite (Message.content m) = false
                 /\ endsWhite (Message.content m) = false.
Proof.
  apply (proj1 (sendMessage_outcome Demo.castObjectId Demo.objectId Demo.alice
                  (Demo.chat Demo.BOB "hi") Demo.boot.1 eq_refl) Demo.BOB "hi").
  repeat split; try discriminate; try (vm_compute; reflexivity).
  exists (User.mk "bob" false 0). vm_compute. reflexivity.
Defined.

(** Bob marks Alice's waiting message read through the REST API, her id
    written in upper case. *)
Lemma markMessagesAsRead_outcome_witness :
  let st := Demo.mailWaiting.1 in
  let res := markMessagesAsRead Demo.castObjectId Demo.objectId Demo.bob Demo.ALICE st in
  res.2 = mkResponse 200 true
            (Marked (size (unread (Demo.objectId Demo.ALICE) Demo.bob st)))
  /\ log res.1 = log st.
Proof.
  intros st res.
  destruct (markMessagesAsRead_outcome Demo.castObjectId Demo.objectId Demo.bob
              Demo.ALICE st eq_refl) as (H1 & _ & H3).
  destruct (H1 eq_refl) as (E & _).
  split; [|exact H3]. fold res in E. rewrite E. reflexivity.
Defined.

(** Bob reads his conversation with Alice, her id written in upper case. *)
Lemma getConversation_page_witness :
  let st := Demo.mailWaiting.1 in
  let res := getConversation Demo.castObjectId Demo.objectId Demo.bob Demo.ALICE
               None None st in
  let shown := conversationOf res.2 in
  res.1 = st
  /\ (statusCode res.2 = 200
      <-> Demo.castObjectId Demo.ALICE = true
          /\ is_Some (users st !! Demo.objectId Demo.ALICE))
  /\ length shown <= 50
  /\ (forall p, p ∈ shown ->
        messages st !! doc_id p = Some (doc p)
        /\ ((Message.sender (doc p) = Demo.bob
             /\ Message.receiver (doc p) = Demo.objectId Demo.ALICE)
            \/ (Message.sender (doc p) = Demo.objectId Demo.ALICE
                /\ Message.receiver (doc p) = Demo.bob))
        /\ senderName p = User.username <$> users st !! Message.sender (doc p)
        /\ receiverName p = User.username <$> users st !! Message.receiver (doc p)).
Proof.
  intros st res shown.
  destruct (getConversation_page Demo.castObjectId Demo.objectId Demo.bob Demo.ALICE
              None None st eq_refl) as (H1 & H2 & _ & _ & H5 & _ & _ & H8 & _).
  split; [exact H1|]. split; [exact H2|]. split; [exact H5|exact H8].
Defined.

(** Alice's token at the REST guard and at the handshake. *)
Lemma protect_agrees_with_handshake_witness :
  match protect Demo.verifyToken Demo.castObjectId Demo.objectId
          (Some ("Bearer " ++ "alice.jwt")) Demo.boot.1 with
  | Next uid user =>
      exec (onConnection Demo.verifyToken Demo.castObjectId Demo.objectId 1
              (Some "alice.jwt")) Demo.boot.1
      = exec (registerConnection 1 uid user) Demo.boot.1
  | Denied _ =>
      exists msg code,
        exec (onConnection Demo.verifyToken Demo.castObjectId Demo.objectId 1
                (Some "alice.jwt")) Demo.boot.1
        = exec (reject 1 msg code) Demo.boot.1
        /\ code ∈ [AUTH_REQUIRED; INVALID_TOKEN; USER_NOT_FOUND; SERVER_ERROR]
  end.
Proof.
  apply (protect_agrees_with_handshake Demo.verifyToken Demo.castObjectId
           Demo.objectId "alice.jwt" 1 Demo.boot.1).
  reflexivity.
Defined.

(** Alice writes to an id that names no account, over REST and over her
    socket. *)
Lemma rest_checks_the_receiver_the_router_does_not_witness :
  let st := Demo.aliceOnline.1 in
  let data := Demo.chat Scenes.nobody "hi" in
  sendMessage Demo.castObjectId Demo.objectId Demo.alice data st
  = (st, mkResponse 404 false (Failure "Receiver not found"))
  /\ exec (onMessage Demo.castObjectId Demo.objectId 1 Demo.alice "alice"
             (chat_message (Some data))) st
     = emit (Send 1 (message_sent (fresh (dom (messages st))) Scenes.nobody "hi"
                       (now st) Message.sent))
         (with_messages
            <[fresh (dom (messages st))
              := Message.mk Demo.alice (Demo.objectId Scenes.nobody) (trim "hi")
                            (default "text" (data !! "messageType"))
                            false None Message.sent (now st)]> st).
Proof.
  apply (rest_checks_the_receiver_the_router_does_not Demo.castObjectId Demo.objectId
           Demo.aliceOnline.1 1 Demo.alice "alice" (Demo.chat Scenes.nobody "hi")
           Scenes.nobody "hi"); vm_compute; reflexivity.
Defined.

(** Alice connects on socket 1 of the fresh server and leaves again. *)
Lemma presence_follows_connection_witness :
  let st := Demo.boot.1 in
  let user := User.mk "alice" false 0 in
  let st1 := exec (dispatch Demo.verifyToken Demo.castObjectId Demo.objectId
                     (Connect 1 (Some "alice.jwt"))) st in
  let st2 := exec (dispatch Demo.verifyToken Demo.castObjectId Demo.objectId
                     (Closed 1)) st1 in
  (connectedClients st1 = <[Demo.alice := 1]> (connectedClients st)
   /\ users st1
      = <[Demo.alice := User.mk (User.username user) true (User.lastSeen user)]>
          (users st)
   /\ listener 1 st1 = Some (Demo.alice, User.username user)
   /\ clients st1 = clients st ∪ {[1]})
  /\ (connectedClients st2 = delete Demo.alice (connectedClients st)
      /\ users st2
         = <[Demo.alice := User.mk (User.username user) false (now st)]> (users st)
      /\ isOpen 1 st2 = false
      /\ clients st2 = clients st ∖ {[1]}
      /\ received 1 st2 = received 1 st1)
  /\ messages st1 = messages st /\ messages st2 = messages st.
Proof.
  apply (presence_follows_connection Demo.verifyToken Demo.castObjectId Demo.objectId
           Demo.boot.1 1 "alice.jwt" Demo.alice Demo.alice (User.mk "alice" false 0));
    try (vm_compute; reflexivity).
  discriminate.
Defined.

(** Alice writes to herself, her own id written in upper case. *)
Lemma self_send_guard_compares_spellings_witness :
  let st := Demo.aliceOnline.1 in
  let data := Demo.chat Demo.ALICE "hi" in
  let m := Message.mk Demo.alice Demo.alice (trim "hi")
                      (default "text" (data !! "messageType"))
                      false None Message.sent (now st) in
  let id := fresh (dom (messages st)) in
  let st1 := (onMessage Demo.castObjectId Demo.objectId 1 Demo.alice "alice"
                (chat_message (Some data)) st).1 in
  Demo.ALICE <> Demo.alice
  /\ messages st !! id = None
  /\ messages st1 !! id = Some m
  /\ log st1 = log st
  /\ (is_Some (users st !! Demo.alice) ->
      sendMessage Demo.castObjectId Demo.objectId Demo.alice data st
      = (with_messages <[id := m]> st,
         mkResponse 201 true
           (MessageSent
              (mkPopulated id m (User.username <$> users st !! Demo.alice)
                           (User.username <$> users st !! Demo.alice))))).
Proof.
  apply (self_send_guard_compares_spellings Demo.castObjectId Demo.objectId
           Demo.aliceOnline.1 1 Demo.alice "alice" (Demo.chat Demo.ALICE "hi")
           Demo.ALICE "hi"); vm_compute; reflexivity.
Defined.
